(** * Snapshot fetcher and overlay manager of hive

    Shallow embedding of [internal/snapshot/snapshot.go] (the [Fetcher]),
    of the older [hivesim] [SnapshotManager], and of
    [internal/overlay/overlay.go] together with its Linux and non-Linux
    platform files.

    The file system, the network and the kernel are modelled as explicit
    state plus an environment record giving the outcome of every system
    call the code makes (the answers of the server, whether a [MkdirAll],
    a [Remove], a [RemoveAll], a mount or an unmount succeeds).  Every
    operation of the overlay manager runs under the manager's mutex, so each
    one is modelled as a single state transition. *)

From Stdlib Require Import ZArith Lia Bool Ascii.
From stdpp Require Import base gmap strings.

Open Scope Z_scope.

(** Go's [(T, error)] results. *)
Inductive result (E A : Type) : Type :=
| Ok : A -> result E A
| Err : E -> result E A.
Arguments Ok {E A} _.
Arguments Err {E A} _.

(** ** String helpers of the Go standard library (bytes are ASCII
    characters; only the ASCII part of [strings.ToLower] and
    [strings.TrimSpace] is modelled). *)

Definition lower_ascii (c : ascii) : ascii :=
  let n := nat_of_ascii c in
  if (65 <=? n)%nat && (n <=? 90)%nat then ascii_of_nat (n + 32) else c.

(** [strings.ToLower] *)
Fixpoint ToLower (s : string) : string :=
  match s with
  | EmptyString => EmptyString
  | String c s' => String (lower_ascii c) (ToLower s')
  end.

Definition is_space (c : ascii) : bool :=
  let n := nat_of_ascii c in
  (n =? 32)%nat || (n =? 9)%nat || (n =? 10)%nat || (n =? 11)%nat
  || (n =? 12)%nat || (n =? 13)%nat.

Fixpoint trim_left (s : string) : string :=
  match s with
  | EmptyString => EmptyString
  | String c s' => if is_space c then trim_left s' else s
  end.

Definition rev_string (s : string) : string :=
  String.string_of_list_ascii (rev (String.list_ascii_of_string s)).

(** [strings.TrimSpace] *)
Definition TrimSpace (s : string) : string :=
  rev_string (trim_left (rev_string (trim_left s))).

(** [strings.Index(s, "_")]: the byte index of the first ['_'], or -1. *)
Fixpoint index_underscore (s : string) : Z :=
  match s with
  | EmptyString => -1
  | String c s' =>
      if Ascii.eqb c "_"%char then 0
      else let i := index_underscore s' in if i <? 0 then -1 else i + 1
  end.

(** [filepath.Join] of two components (the inputs are clean paths). *)
Definition join (a b : string) : string := a +:+ "/" +:+ b.

(** [strings.Fields]: the maximal runs of bytes that are not white space
    ([acc] is the run being read; as for [TrimSpace], only the ASCII white
    space is modelled). *)
Fixpoint Fields_go (s acc : string) : list string :=
  match s with
  | EmptyString => if String.eqb acc "" then [] else [acc]
  | String c s' =>
      if is_space c then
        if String.eqb acc "" then Fields_go s' "" else acc :: Fields_go s' ""
      else Fields_go s' (acc +:+ String c "")
  end.
Definition Fields (s : string) : list string := Fields_go s "".

(** The tokens of [bufio.ScanLines]: the text split at ['\n'], a last line
    without ['\n'] kept when it is not empty ([cur] is the line being
    read). *)
Fixpoint split_lines (s cur : string) : list string :=
  match s with
  | EmptyString => if String.eqb cur "" then [] else [cur]
  | String c s' =>
      if Ascii.eqb c "010"%char then cur :: split_lines s' ""
      else split_lines s' (cur +:+ String c "")
  end.

(** [dropCR] of [bufio.ScanLines]: a trailing ['\r'] is removed. *)
Definition drop_cr (l : string) : string :=
  match String.get (String.length l - 1) l with
  | Some c =>
      if Ascii.eqb c "013"%char then String.substring 0 (String.length l - 1) l
      else l
  | None => l
  end.

(** [bufio.MaxScanTokenSize] *)
Definition MaxScanTokenSize : nat := 65536.

(** The lines [scanner.Scan] yields: a line of [MaxScanTokenSize] bytes or
    more (without its ['\n']) does not fit the buffer, and [Scan] stops
    there with [ErrTooLong]. *)
Fixpoint scan_fitting (ls : list string) : list string :=
  match ls with
  | [] => []
  | l :: ls' =>
      if (String.length l <? MaxScanTokenSize)%nat
      then drop_cr l :: scan_fitting ls' else []
  end.
Definition scan_lines (s : string) : list string := scan_fitting (split_lines s "").

(** * The snapshot fetcher ([internal/snapshot/snapshot.go]) *)
Module Snapshot.

Definition SnapshotFileName : string := "snapshot.tar.zst".
Definition DefaultBaseURL : string := "https://snapshots.ethpandaops.io".

(** [Config] *)
Record Config := {
  Network : string;
  Client : string;
  BlockNumber : string;
  BaseURL : string;
  CacheDir : string
}.

(** [Fetcher] (its logger and HTTP client are not modelled). *)
Record Fetcher := {
  cacheDir : string;
  baseURL : string
}.

(** [mapClientName] *)
Definition mapClientName (hiveName : string) : string :=
  let idx := index_underscore hiveName in
  let baseName :=
    if 0 <? idx then String.substring 0 (Z.to_nat idx) hiveName else hiveName in
  let key := ToLower baseName in
  if String.eqb key "go-ethereum" then "geth"
  else if String.eqb key "nethermind" then "nethermind"
  else if String.eqb key "besu" then "besu"
  else if String.eqb key "reth" then "reth"
  else if String.eqb key "erigon" then "erigon"
  else baseName.

(** One cache entry [{cache}/{network}/{client}/{block}/] on disk: whether
    the directory exists, the size of [snapshot.tar.zst] if present, whether
    [data/] exists, whether [.complete] exists. *)
Record Entry := {
  e_dir : bool;
  e_archive : option Z;
  e_data : bool;
  e_complete : bool
}.

Definition empty_entry : Entry :=
  {| e_dir := false; e_archive := None; e_data := false; e_complete := false |}.

(** The cache, keyed by entry directory path. *)
Abbreviation Store := (gmap string Entry).

Definition entry_at (st : Store) (dir : string) : Entry :=
  default empty_entry (st !! dir).

(** A network request: URL and the [Range: bytes=N-] start, if sent. *)
Record Req := { req_url : string; req_range : option Z }.

(** The answer of the server to one GET of the archive: a transport error,
    or a status, a [Content-Length], the number of body bytes [io.Copy]
    writes, and whether [io.Copy] ends without error. *)
Inductive Resp :=
| RTransportErr
| RResp (status : Z) (content_length : Z) (body : Z) (copy_ok : bool).

(** The answer to the GET of [{base}/{network}/{client}/latest]. *)
Inductive LatestResp :=
| LTransportErr
| LResp (status : Z) (body : string).

(** Outcomes of everything the fetcher asks of the outside world. *)
Record FEnv := {
  latest : LatestResp;
  archive_resps : list Resp;     (* answers to the archive GETs, in order *)
  mkdir_ok : bool;               (* os.MkdirAll(destDir) *)
  create_ok : bool;              (* os.Create(destPath) *)
  mkdir_data_ok : bool;          (* os.MkdirAll(extractedDir) *)
  extract_ok : bool;             (* extractTarZst *)
  rm_archive_ok : bool;          (* os.Remove(archivePath) *)
  rmall_ok : bool;               (* os.RemoveAll(extractedDir) *)
  marker_ok : bool               (* os.WriteFile(markerPath) *)
}.

(** Errors of [downloadFile]. *)
Inductive DErr :=
| DTransport | DHTTP (status : Z) | DCreate | DOpen | DCopy.

(** Errors of [EnsureSnapshot]. *)
Inductive SErr :=
| EResolve | EMkdir | EDownload (d : DErr) | EMkdirData | EExtract.

(** [downloadFile]: returns the result, the archive afterwards, the
    requests made and the unused answers.  When the answers run out the
    request fails at the transport level.  The recursion of the 416 case
    consumes one answer, so it is structural on the answers. *)
Fixpoint downloadFile (env : FEnv) (url : string) (arch : option Z)
    (rs : list Resp) {struct rs}
    : result DErr unit * option Z * list Req * list Resp :=
  let existingSize := default 0 arch in
  let req := {| req_url := url;
                req_range := if 0 <? existingSize then Some existingSize
                             else None |} in
  match rs with
  | [] => (Err DTransport, arch, [req], [])
  | RTransportErr :: rs' => (Err DTransport, arch, [req], rs')
  | RResp st _ body ok :: rs' =>
      if st =? 200 then
        if create_ok env
        then ((if ok then Ok tt else Err DCopy), Some body, [req], rs')
        else (Err DCreate, arch, [req], rs')
      else if st =? 206 then
        match arch with
        | None => (Err DOpen, None, [req], rs')
        | Some n => ((if ok then Ok tt else Err DCopy), Some (n + body), [req], rs')
        end
      else if st =? 416 then
        let arch' := if rm_archive_ok env then None else arch in
        let '(r, a, log, rest) := downloadFile env url arch' rs' in
        (r, a, req :: log, rest)
      else (Err (DHTTP st), arch, [req], rs')
  end.

Definition snapshot_url (base network client block : string) : string :=
  join (join (join (join base network) client) block) SnapshotFileName.

(** [downloadSnapshot] on the entry [e] at [destDir]. *)
Definition downloadSnapshot (env : FEnv) (base network client block : string)
    (e : Entry) : result SErr unit * Entry * list Req :=
  if negb (mkdir_ok env) then (Err EMkdir, e, []) else
  let '(r, a, log, _) :=
    downloadFile env (snapshot_url base network client block) (e_archive e)
      (archive_resps env) in
  let e2 := {| e_dir := true; e_archive := a; e_data := e_data e;
               e_complete := e_complete e |} in
  match r with
  | Err d => (Err (EDownload d), e2, log)
  | Ok _ =>
      if negb (mkdir_data_ok env) then (Err EMkdirData, e2, log) else
      if negb (extract_ok env) then
        (Err EExtract,
         {| e_dir := true; e_archive := a; e_data := negb (rmall_ok env);
            e_complete := e_complete e |}, log)
      else
        (Ok tt,
         {| e_dir := true;
            e_archive := if rm_archive_ok env then None else a;
            e_data := true;
            e_complete := e_complete e || marker_ok env |}, log)
  end.

(** [resolveLatestBlock] *)
Definition resolveLatestBlock (env : FEnv) (base network client : string)
    : result SErr string * list Req :=
  let req := {| req_url := join (join (join base network) client) "latest";
                req_range := None |} in
  match latest env with
  | LTransportErr => (Err EResolve, [req])
  | LResp st body =>
      if negb (st =? 200) then (Err EResolve, [req]) else
      let b := TrimSpace (String.substring 0 64 body) in
      if String.eqb b "" then (Err EResolve, [req]) else (Ok b, [req])
  end.

Definition snapshot_dir (cache network client block : string) : string :=
  join (join (join cache network) client) block.

(** Normalised inputs of [EnsureSnapshot]: network, client, block. *)
Definition norm_network (cfg : Config) : string := ToLower (Network cfg).
Definition norm_client (cfg : Config) : string := ToLower (mapClientName (Client cfg)).
Definition norm_block (cfg : Config) : string :=
  if String.eqb (BlockNumber cfg) "" then "latest" else BlockNumber cfg.
Definition eff_base (f : Fetcher) (cfg : Config) : string :=
  if String.eqb (BaseURL cfg) "" then baseURL f else BaseURL cfg.
Definition eff_cache (f : Fetcher) (cfg : Config) : string :=
  if String.eqb (CacheDir cfg) "" then cacheDir f else CacheDir cfg.

(** [EnsureSnapshot]: the result, the cache afterwards and the network
    requests made, in order. *)
Definition EnsureSnapshot (f : Fetcher) (cfg : Config) (env : FEnv) (st : Store)
    : result SErr string * Store * list Req :=
  let network := norm_network cfg in
  let client := norm_client cfg in
  let base := eff_base f cfg in
  let cache := eff_cache f cfg in
  let '(rb, log1) :=
    if String.eqb (norm_block cfg) "latest"
    then resolveLatestBlock env base network client
    else (Ok (norm_block cfg), []) in
  match rb with
  | Err err => (Err err, st, log1)
  | Ok block =>
      let dir := snapshot_dir cache network client block in
      let extractedDir := join dir "data" in
      let e := entry_at st dir in
      if e_complete e then (Ok extractedDir, st, log1) else
      let '(r, e', log2) := downloadSnapshot env base network client block e in
      (match r with Ok _ => Ok extractedDir | Err err => Err err end,
       <[dir := e']> st, log1 ++ log2)
  end.

(** [GetCachedSnapshotPath]: the [data/] path when [.complete] exists,
    [""] otherwise (it reads the fetcher's own cache directory and does not
    resolve "latest"). *)
Definition GetCachedSnapshotPath (f : Fetcher) (network client blockNumber : string)
    (st : Store) : string :=
  let blockNumber := if String.eqb blockNumber "" then "latest" else blockNumber in
  let network := ToLower network in
  let client := ToLower (mapClientName client) in
  let dir := snapshot_dir (cacheDir f) network client blockNumber in
  if e_complete (entry_at st dir) then join dir "data" else "".

End Snapshot.

(** * The [hivesim] [SnapshotManager] ([downloadSnapshot] and its
    [downloadFile], which sends no [Range] header). *)
Module Hivesim.
Import Snapshot.

(** [SnapshotManager.downloadFile]: one GET, only 200 is accepted. *)
Definition downloadFile (env : FEnv) (url : string) (arch : option Z)
    : result DErr unit * option Z * list Req :=
  let req := {| req_url := url; req_range := None |} in
  match archive_resps env with
  | [] | RTransportErr :: _ => (Err DTransport, arch, [req])
  | RResp st _ body ok :: _ =>
      if negb (st =? 200) then (Err (DHTTP st), arch, [req])
      else if create_ok env
      then ((if ok then Ok tt else Err DCopy), Some body, [req])
      else (Err DCreate, arch, [req])
  end.

(** [SnapshotManager.downloadSnapshot]; here [rmall_ok] is the outcome of
    [os.RemoveAll(destDir)], which wipes the whole entry.  The metadata
    fetch and save that follow the extraction only log their errors and
    touch [metadata.json], which [Entry] does not record. *)
Definition downloadSnapshot (env : FEnv) (base network client block : string)
    (e : Entry) : result SErr unit * Entry * list Req :=
  if negb (mkdir_ok env) then (Err EMkdir, e, []) else
  let '(r, a, log) :=
    downloadFile env (snapshot_url base network client block) (e_archive e) in
  let e2 := {| e_dir := true; e_archive := a; e_data := e_data e;
               e_complete := e_complete e |} in
  let wiped (x : Entry) := if rmall_ok env then empty_entry else x in
  match r with
  | Err d => (Err (EDownload d), wiped e2, log)
  | Ok _ =>
      if negb (mkdir_data_ok env) then (Err EMkdirData, wiped e2, log) else
      let e3 := {| e_dir := true; e_archive := a; e_data := true;
                   e_complete := e_complete e |} in
      if negb (extract_ok env) then (Err EExtract, wiped e3, log)
      else
        (Ok tt, {| e_dir := true;
                   e_archive := if rm_archive_ok env then None else a;
                   e_data := true; e_complete := e_complete e |}, log)
  end.

Definition DefaultSnapshotBaseURL : string := "https://snapshots.ethpandaops.io".
Definition SnapshotMetadataFile : string := "_snapshot_eth_getBlockByNumber.json".

(** [SnapshotConfig] (its [HTTPClient] is not modelled). *)
Record SnapshotConfig := {
  BaseURL : string;
  CacheDir : string;
  Network : string;
  Client : string;
  BlockNumber : string
}.

(** [SnapshotManager] (its HTTP client is not modelled). *)
Record SnapshotManager := { config : SnapshotConfig }.

(** [NewSnapshotManager] *)
Definition NewSnapshotManager (c : SnapshotConfig) : SnapshotManager :=
  {| config := {| BaseURL := if String.eqb (BaseURL c) "" then DefaultSnapshotBaseURL
                             else BaseURL c;
                  CacheDir := if String.eqb (CacheDir c) "" then "/var/lib/hive/snapshots"
                              else CacheDir c;
                  Network := Network c; Client := Client c;
                  BlockNumber := BlockNumber c |} |}.

(** The outcomes the manager meets besides those of [FEnv]: whether
    [saveMetadata] writes [metadata.json].  The answer to the metadata GET
    only changes what [metadata.json] contains, so only the request is
    recorded. *)
Record HEnv := { fenv : FEnv; save_ok : bool }.

(** The manager's cache: per entry directory, the entry and whether
    [metadata.json] exists. *)
Abbreviation HStore := (gmap string (Entry * bool)).

Definition hentry_at (st : HStore) (dir : string) : Entry * bool :=
  default (empty_entry, false) (st !! dir).

Definition metadata_url (base network client block : string) : string :=
  join (join (join (join base network) client) block) SnapshotMetadataFile.

(** [EnsureSnapshotAt]: the cache check needs [data/] and
    [metadata.json]; after a download, [metadata.json] is saved (its save
    error only printed), and [RemoveAll(destDir)] on a failure removes it
    with the rest of the entry. *)
Definition EnsureSnapshotAt (m : SnapshotManager) (env : HEnv)
    (network client blockNumber : string) (st : HStore)
    : result SErr string * HStore * list Req :=
  let network := ToLower network in
  let client := ToLower client in
  let snapshotDir := snapshot_dir (CacheDir (config m)) network client blockNumber in
  let extractedDir := join snapshotDir "data" in
  let '(e, meta) := hentry_at st snapshotDir in
  if e_data e && meta then (Ok extractedDir, st, []) else
  let '(r, e', log) :=
    downloadSnapshot (fenv env) (BaseURL (config m)) network client blockNumber e in
  match r with
  | Err err =>
      let meta' := if mkdir_ok (fenv env) && rmall_ok (fenv env) then false else meta in
      (Err err, <[snapshotDir := (e', meta')]> st, log)
  | Ok _ =>
      (Ok extractedDir, <[snapshotDir := (e', meta || save_ok env)]> st,
       log ++ [{| req_url := metadata_url (BaseURL (config m)) network client blockNumber;
                  req_range := None |}])
  end.

(** [SnapshotManager.EnsureSnapshot] *)
Definition EnsureSnapshot (m : SnapshotManager) (env : HEnv) (network client : string)
    (st : HStore) : result SErr string * HStore * list Req :=
  EnsureSnapshotAt m env network client "latest" st.


(** Errors of [FetchSnapshotWithConfig]. *)
Inductive FErr := FNetworkRequired | FClientRequired | FEnsure (e : SErr).

(** [FetchSnapshotWithConfig] *)
Definition FetchSnapshotWithConfig (c : SnapshotConfig) (env : HEnv) (st : HStore)
    : result FErr string * HStore * list Req :=
  if String.eqb (Network c) "" then (Err FNetworkRequired, st, []) else
  if String.eqb (Client c) "" then (Err FClientRequired, st, []) else
  let m := NewSnapshotManager c in
  let blockNumber := if String.eqb (BlockNumber c) "" then "latest" else BlockNumber c in
  let '(r, st', log) := EnsureSnapshotAt m env (Network c) (Client c) blockNumber st in
  (match r with Ok p => Ok p | Err e => Err (FEnsure e) end, st', log).

End Hivesim.

(** * The overlay manager ([internal/overlay]) *)
Module Overlay.

(** [Config] *)
Record Config := {
  SnapshotPath : string;
  ContainerMountPath : string
}.

(** [Mount]; [CreatedAt] is a [time.Time], kept as Unix nanoseconds. *)
Record Mount := {
  ID : string;
  ContainerID : string;
  LowerDir : string;
  UpperDir : string;
  WorkDir : string;
  MergedDir : string;
  ContainerPath : string;
  CreatedAt : Z
}.

(** The error values of [errors.go], plus the wrapped errors that have no
    sentinel ([ErrStat], [ErrMkdir], [ErrRemoveAll], [ErrReadState]). *)
Inductive Error :=
| ErrOverlayNotSupported | ErrSnapshotNotFound | ErrSnapshotNotDirectory
| ErrMountFailed | ErrUnmountFailed | ErrPermissionDenied
| ErrOverlayExists | ErrOverlayNotFound
| ErrStat | ErrMkdir | ErrRemoveAll | ErrReadState.

(** The outcome of [CreateOverlay]: a mount, an error, or a run-time panic. *)
Inductive outcome (A : Type) :=
| Done (a : A)
| Fail (e : Error)
| Panic.
Arguments Done {A} _.
Arguments Fail {A} _.
Arguments Panic {A}.

(** Build tags: [overlay_linux.go] or [overlay_other.go]. *)
Inductive Platform := Linux | NonLinux.

(** What [os.Stat] says of the snapshot path. *)
Inductive StatRes := StNotExist | StErr | StFile | StDir.

(** What the mount syscall does. *)
Inductive MountRes := MountOk | MountPerm | MountOther.

(** Contents of [state.json]: a registry that [json.Unmarshal] accepts, or
    bytes that it rejects. *)
Inductive StateFile :=
| SValid (m : gmap string Mount)
| SMalformed.

(** Outcomes of everything the manager asks of the outside world. *)
Record OEnv := {
  platform : Platform;
  stat : string -> StatRes;
  now : Z;                 (* time.Now().UnixNano() for the overlay ID *)
  created_at : Z;          (* time.Now() for CreatedAt *)
  mkdir_ok : bool;         (* the three os.MkdirAll calls *)
  mount_res : MountRes;
  umount_ok : bool;        (* syscall.Unmount(path, 0) *)
  umount_lazy_ok : bool;   (* syscall.Unmount(path, MNT_DETACH) *)
  umount_force_ok : bool;  (* syscall.Unmount(path, MNT_FORCE|MNT_DETACH) *)
  rmall_ok : bool;         (* os.RemoveAll of an overlay directory *)
  write_ok : bool;         (* os.WriteFile(state.json) *)
  remove_ok : bool;        (* os.Remove(state.json) *)
  read_ok : bool           (* os.ReadFile(state.json), when it exists *)
}.

(** The manager and what it owns on disk: the registry [overlays], the
    overlay directory trees [{BaseDir}/{id}] (by id: the ids whose
    directory is still present, possibly only in part, since a failing
    [os.RemoveAll] may have deleted some of its contents), the mount points
    in the kernel mount table, and [{BaseDir}/state.json]. *)
Record OState := {
  BaseDir : string;
  overlays : gmap string Mount;
  dirs : gset string;
  mounted : gset string;
  state_file : option StateFile
}.

Definition with_overlays (s : OState) (o : gmap string Mount) : OState :=
  {| BaseDir := BaseDir s; overlays := o; dirs := dirs s;
     mounted := mounted s; state_file := state_file s |}.
Definition with_dirs (s : OState) (d : gset string) : OState :=
  {| BaseDir := BaseDir s; overlays := overlays s; dirs := d;
     mounted := mounted s; state_file := state_file s |}.
Definition with_mounted (s : OState) (mt : gset string) : OState :=
  {| BaseDir := BaseDir s; overlays := overlays s; dirs := dirs s;
     mounted := mt; state_file := state_file s |}.
Definition with_state_file (s : OState) (f : option StateFile) : OState :=
  {| BaseDir := BaseDir s; overlays := overlays s; dirs := dirs s;
     mounted := mounted s; state_file := f |}.

(** Decimal rendering of [%d]. *)
Fixpoint digits_go (fuel : nat) (n : N) (acc : string) : string :=
  match fuel with
  | O => acc
  | S f =>
      let acc' := String (ascii_of_N (48 + N.modulo n 10)) acc in
      if (N.div n 10 =? 0)%N then acc' else digits_go f (N.div n 10) acc'
  end.
Definition dec_of_N (n : N) : string := digits_go (S (N.size_nat n)) n "".
Definition dec_of_Z (z : Z) : string :=
  if z <? 0 then "-" +:+ dec_of_N (Z.abs_N z) else dec_of_N (Z.to_N z).

(** [fmt.Sprintf("%s_%d", containerID[:12], time.Now().UnixNano())], for a
    [containerID] of at least 12 bytes. *)
Definition overlay_id (containerID : string) (t : Z) : string :=
  String.substring 0 12 containerID +:+ "_" +:+ dec_of_Z t.

(** [isMounted]: is the path in the kernel mount table. *)
Definition isMounted (s : OState) (path : string) : bool :=
  bool_decide (path ∈ mounted s).

Definition unmount (s : OState) (path : string) : OState :=
  with_mounted s (mounted s ∖ {[path]}).

(** [mountOverlay] (Linux) and its non-Linux stub. *)
Definition mountOverlay (env : OEnv) (s : OState) (m : Mount)
    : result Error OState :=
  match platform env with
  | NonLinux => Err ErrOverlayNotSupported
  | Linux =>
      match mount_res env with
      | MountOk => Ok (with_mounted s ({[MergedDir m]} ∪ mounted s))
      | MountPerm => Err ErrPermissionDenied
      | MountOther => Err ErrMountFailed
      end
  end.

(** [cleanupDirs]: [os.RemoveAll({BaseDir}/{ID})], its error returned; on
    an error the directory is still present (see [OState]). *)
Definition cleanupDirs (env : OEnv) (s : OState) (m : Mount)
    : result Error unit * OState :=
  if rmall_ok env then (Ok tt, with_dirs s (dirs s ∖ {[ID m]}))
  else (Err ErrRemoveAll, s).

(** [cleanupMount]: the unmount escalation (Linux) and its non-Linux stub.
    [killProcesses] is best effort and changes nothing modelled here. *)
Definition cleanupMount (env : OEnv) (s : OState) (m : Mount)
    : result Error unit * OState :=
  match platform env with
  | NonLinux => (Err ErrOverlayNotSupported, s)
  | Linux =>
      if negb (isMounted s (MergedDir m)) then cleanupDirs env s m
      else if umount_ok env then cleanupDirs env (unmount s (MergedDir m)) m
      else if umount_lazy_ok env then cleanupDirs env (unmount s (MergedDir m)) m
      else if umount_force_ok env then cleanupDirs env (unmount s (MergedDir m)) m
      else (Err ErrUnmountFailed, s)
  end.

(** [os.Remove(state.json)], its error ignored. *)
Definition remove_state (env : OEnv) (s : OState) : OState :=
  if remove_ok env then with_state_file s None else s.

(** [persistState]; every caller only logs its error. *)
Definition persistState (env : OEnv) (s : OState) : OState :=
  if (size (overlays s) =? 0)%nat then remove_state env s
  else if write_ok env then with_state_file s (Some (SValid (overlays s)))
  else s.

(** [CreateOverlay] *)
Definition CreateOverlay (env : OEnv) (containerID : string) (config : Config)
    (s : OState) : outcome Mount * OState :=
  match overlays s !! containerID with
  | Some _ => (Fail ErrOverlayExists, s)
  | None =>
      match stat env (SnapshotPath config) with
      | StNotExist => (Fail ErrSnapshotNotFound, s)
      | StErr => (Fail ErrStat, s)
      | StFile => (Fail ErrSnapshotNotDirectory, s)
      | StDir =>
          if (String.length containerID <? 12)%nat then (Panic, s) else
          let overlayID := overlay_id containerID (now env) in
          let overlayDir := join (BaseDir s) overlayID in
          let m := {| ID := overlayID; ContainerID := containerID;
                      LowerDir := SnapshotPath config;
                      UpperDir := join overlayDir "upper";
                      WorkDir := join overlayDir "work";
                      MergedDir := join overlayDir "merged";
                      ContainerPath := ContainerMountPath config;
                      CreatedAt := created_at env |} in
          let s1 := with_dirs s ({[overlayID]} ∪ dirs s) in
          let removed :=
            if rmall_ok env then with_dirs s1 (dirs s1 ∖ {[overlayID]}) else s1 in
          if negb (mkdir_ok env) then (Fail ErrMkdir, removed) else
          match mountOverlay env s1 m with
          | Err e => (Fail e, removed)
          | Ok s2 =>
              (Done m, persistState env (with_overlays s2 (<[containerID := m]> (overlays s2))))
          end
      end
  end.

(** [CleanupOverlay] *)
Definition CleanupOverlay (env : OEnv) (containerID : string) (s : OState)
    : result Error unit * OState :=
  match overlays s !! containerID with
  | None => (Ok tt, s)
  | Some m =>
      match cleanupMount env s m with
      | (Err e, s') => (Err e, s')
      | (Ok _, s') =>
          (Ok tt, persistState env (with_overlays s' (delete containerID (overlays s'))))
      end
  end.

(** The loop [for containerID, mount := range ...] over [cleanupMount],
    keeping the last error.  Go's map order is unspecified; the list given
    fixes one. *)
Fixpoint cleanup_each (env : OEnv) (ms : list (string * Mount))
    (lastErr : option Error) (s : OState) : option Error * OState :=
  match ms with
  | [] => (lastErr, s)
  | (_, m) :: ms' =>
      let '(r, s') := cleanupMount env s m in
      cleanup_each env ms'
        (match r with Err e => Some e | Ok _ => lastErr end) s'
  end.

(** [CleanupAll] *)
Definition CleanupAll (env : OEnv) (s : OState) : result Error unit * OState :=
  let '(lastErr, s') := cleanup_each env (map_to_list (overlays s)) None s in
  let s'' := remove_state env (with_overlays s' ∅) in
  (match lastErr with Some e => Err e | None => Ok tt end, s'').

(** [RecoverOrphanedMounts] *)
Definition RecoverOrphanedMounts (env : OEnv) (s : OState)
    : result Error unit * OState :=
  match state_file s with
  | None => (Ok tt, s)
  | Some f =>
      if negb (read_ok env) then (Err ErrReadState, s) else
      match f with
      | SMalformed => (Ok tt, remove_state env s)
      | SValid st =>
          let '(_, s') := cleanup_each env (map_to_list st) None s in
          (Ok tt, remove_state env s')
      end
  end.

(** [GetOverlay] *)
Definition GetOverlay (containerID : string) (s : OState) : option Mount :=
  overlays s !! containerID.

(** [isMounted] of [overlay_linux.go], on the text of [/proc/mounts]
    ([None] when [os.Open] fails): is [path] the second field of a line
    the scanner reads. *)
Definition isMounted_proc (proc_mounts : option string) (path : string) : bool :=
  match proc_mounts with
  | None => false
  | Some txt =>
      existsb (fun line =>
                 match Fields line with
                 | _ :: f1 :: _ => String.eqb f1 path
                 | _ => false
                 end) (scan_lines txt)
  end.

End Overlay.

(** * Concrete inputs used by the examples below *)
Module Samples.
Import Snapshot.

Definition f0 : Fetcher := {| cacheDir := "/c"; baseURL := DefaultBaseURL |}.

(** Block 100 of geth on mainnet, and the same with the block left empty
    (that is, "latest"). *)
Definition cfg100 : Config :=
  {| Network := "mainnet"; Client := "geth"; BlockNumber := "100";
     BaseURL := ""; CacheDir := "" |}.
Definition cfg_latest : Config :=
  {| Network := "mainnet"; Client := "geth"; BlockNumber := "";
     BaseURL := ""; CacheDir := "" |}.

(** A fetch environment: the latest endpoint answers [100], the archive
    GETs get [rs], every file operation succeeds except possibly the
    archive removal and the marker write. *)
Definition mk_env (rs : list Resp) (rm_archive marker : bool) : FEnv :=
  {| latest := LResp 200 "100"; archive_resps := rs; mkdir_ok := true;
     create_ok := true; mkdir_data_ok := true; extract_ok := true;
     rm_archive_ok := rm_archive; rmall_ok := true; marker_ok := marker |}.

Definition full_body : list Resp := [RResp 200 10 10 true].

(** The cache of [/c] holding a complete block-100 entry. *)
Definition cached100 : Store :=
  <["/c/mainnet/geth/100" := {| e_dir := true; e_archive := None;
                                e_data := true; e_complete := true |}]> ∅.

(** An entry with a 100-byte partial archive. *)
Definition partial_entry : Entry :=
  {| e_dir := true; e_archive := Some 100; e_data := false; e_complete := false |}.

End Samples.

(** * Concrete inputs and auxiliary notions for the overlay manager *)
Module OverlayProps.
Import Overlay.

(** [state.json] mirrors the registry (invariant I-5): absent when the
    registry is empty, the registry itself otherwise. *)
Definition synced (s : OState) : Prop :=
  if (size (overlays s) =? 0)%nat then state_file s = None
  else state_file s = Some (SValid (overlays s)).

(** [cleanupMount] of [m] succeeds: on Linux, the directory removal
    succeeds and the merged directory is not mounted or one of the three
    unmount attempts succeeds. *)
Definition cleanup_would_succeed (env : OEnv) (s : OState) (m : Mount) : Prop :=
  platform env = Linux /\ rmall_ok env = true /\
  (MergedDir m ∉ mounted s \/
   (umount_ok env || umount_lazy_ok env || umount_force_ok env) = true).

(** A Linux environment where the snapshot path stats as [st], the mount
    succeeds, every unmount attempt returns [um], the state file write
    returns [write], and every other operation succeeds. *)
Definition mk_oenv (st : StatRes) (um write : bool) : OEnv :=
  {| platform := Linux; stat := fun _ => st; now := 1700000000;
     created_at := 1700000000; mkdir_ok := true; mount_res := MountOk;
     umount_ok := um; umount_lazy_ok := um; umount_force_ok := um;
     rmall_ok := true; write_ok := write; remove_ok := true; read_ok := true |}.

Definition s_empty : OState :=
  {| BaseDir := "/o"; overlays := ∅; dirs := ∅; mounted := ∅;
     state_file := None |}.

Definition cid0 : string := "abcdef123456".
Definition cfg0 : Config :=
  {| SnapshotPath := "/tmp/snap"; ContainerMountPath := "/data" |}.

(** A mount left by a crashed process, still mounted. *)
Definition m_orphan : Mount :=
  {| ID := "abcdef123456_1"; ContainerID := cid0; LowerDir := "/tmp/snap";
     UpperDir := "/o/abcdef123456_1/upper"; WorkDir := "/o/abcdef123456_1/work";
     MergedDir := "/o/abcdef123456_1/merged"; ContainerPath := "/data";
     CreatedAt := 1 |}.

Definition s_orphan : OState :=
  {| BaseDir := "/o"; overlays := ∅; dirs := {[ID m_orphan]};
     mounted := {[MergedDir m_orphan]};
     state_file := Some (SValid {[cid0 := m_orphan]}) |}.

(** The same mount, registered by this process. *)
Definition s_registered : OState :=
  {| BaseDir := "/o"; overlays := {[cid0 := m_orphan]}; dirs := {[ID m_orphan]};
     mounted := {[MergedDir m_orphan]};
     state_file := Some (SValid {[cid0 := m_orphan]}) |}.

End OverlayProps.

(** * Auxiliary notions for the statements about the fetcher *)
Module SnapshotProps.
Import Snapshot.


(** Is an answer a 416 Range Not Satisfiable. *)
Definition is416 (x : Resp) : bool :=
  match x with RResp st _ _ _ => st =? 416 | RTransportErr => false end.

(** The entry directory [EnsureSnapshot] computes for [cfg] once the
    block is [block]. *)
Definition entry_dir (f : Fetcher) (cfg : Config) (block : string) : string :=
  snapshot_dir (eff_cache f cfg) (norm_network cfg) (norm_client cfg) block.

(** The first step of [EnsureSnapshot]: the block it works on ([cfg]'s
    block, or the answer of [resolveLatestBlock] when that is "latest")
    and the requests of that step. *)
Definition resolve_step (f : Fetcher) (cfg : Config) (env : FEnv)
    : result SErr string * list Req :=
  if String.eqb (norm_block cfg) "latest"
  then resolveLatestBlock env (eff_base f cfg) (norm_network cfg) (norm_client cfg)
  else (Ok (norm_block cfg), []).


End SnapshotProps.

(** * Auxiliary notions for the further properties *)
Module MoreProps.
Import Overlay.

(** Does a string contain a byte satisfying [p]. *)
Definition has_char (p : ascii -> bool) (s : string) : bool :=
  existsb p (String.list_ascii_of_string s).

Definition has_space (s : string) : bool := has_char is_space s.

(** A single clean path component: not empty, no ['/'], not ["."] or
    [".."].  Joined under a directory, such names give distinct paths in
    Go too (where [filepath.Join] cleans its result). *)
Definition plain_id (i : string) : bool :=
  negb (String.eqb i "") && negb (has_char (fun c => Ascii.eqb c "/"%char) i) &&
  negb (String.eqb i ".") && negb (String.eqb i "..").

(** Every byte is ASCII (where the modelled [Fields] and [TrimSpace]
    coincide with Go's). *)
Definition ascii_only (s : string) : bool :=
  forallb (fun c => (nat_of_ascii c <? 128)%nat) (String.list_ascii_of_string s).

(** A non-empty string that neither starts nor ends with white space. *)
Definition trimmed (s : string) : bool :=
  match String.list_ascii_of_string s with
  | [] => false
  | c :: l => negb (is_space c) && negb (is_space (List.last l c))
  end.

(** A line of [/proc/mounts]: device, mount point, type, options. *)
Record MountEntry := {
  me_dev : string;
  me_dir : string;
  me_type : string;
  me_opts : string
}.

Definition mount_line (e : MountEntry) : string :=
  me_dev e +:+ " " +:+ me_dir e +:+ " " +:+ me_type e +:+ " " +:+ me_opts e +:+ " 0 0".

Fixpoint render_mounts (es : list MountEntry) : string :=
  match es with
  | [] => ""
  | e :: es' => mount_line e +:+ String "010"%char (render_mounts es')
  end.

(** A field of a mount line as the kernel writes it: not empty, ASCII,
    no white space. *)
Definition plain_field (w : string) : Prop :=
  w <> "" /\ has_space w = false /\ ascii_only w = true.

(** The registry invariant: every registered mount belongs to its key,
    its overlay tree exists, its merged directory lies in that tree, and
    no two registered mounts share an overlay ID. *)
Definition reg_inv (s : OState) : Prop :=
  forall c m, overlays s !! c = Some m ->
    ContainerID m = c /\ ID m ∈ dirs s /\
    MergedDir m = join (join (BaseDir s) (ID m)) "merged" /\
    (forall c' m', overlays s !! c' = Some m' -> ID m' = ID m -> c' = c).

(** Every registered mount is mounted. *)
Definition mounted_inv (s : OState) : Prop :=
  forall c m, overlays s !! c = Some m -> MergedDir m ∈ mounted s.

(** The operations of the [Manager] interface that change the manager. *)
Inductive Op :=
| OCreate (containerID : string) (config : Config)
| OCleanup (containerID : string)
| OCleanupAll
| ORecover.

(** One operation; [None] when it panics (the process is gone). *)
Definition step (env : OEnv) (o : Op) (s : OState) : option OState :=
  match o with
  | OCreate cid cfg =>
      match CreateOverlay env cid cfg s with
      | (Panic, _) => None
      | (_, s') => Some s'
      end
  | OCleanup cid => Some (snd (CleanupOverlay env cid s))
  | OCleanupAll => Some (snd (CleanupAll env s))
  | ORecover => Some (snd (RecoverOrphanedMounts env s))
  end.

(** A run of operations, each with the outcomes of its system calls; it
    stops at a panic. *)
Fixpoint run (ops : list (OEnv * Op)) (s : OState) : OState :=
  match ops with
  | [] => s
  | (env, o) :: ops' =>
      match step env o s with
      | None => s
      | Some s' => run ops' s'
      end
  end.

End MoreProps.

(** * Further concrete inputs *)
Module MoreSamples.
Import Overlay OverlayProps MoreProps.

(** A [hivesim] configuration for mainnet geth, everything else left to
    its default, and the manager built from it. *)
Definition hcfg : Hivesim.SnapshotConfig :=
  {| Hivesim.BaseURL := ""; Hivesim.CacheDir := ""; Hivesim.Network := "Mainnet";
     Hivesim.Client := "Geth"; Hivesim.BlockNumber := "" |}.
Definition hm : Hivesim.SnapshotManager := Hivesim.NewSnapshotManager hcfg.

(** The manager's environment: the archive answers 200 with the full body,
    every file operation succeeds except possibly the metadata save. *)
Definition henv (save : bool) : Hivesim.HEnv :=
  {| Hivesim.fenv := Samples.mk_env Samples.full_body true true; Hivesim.save_ok := save |}.



(** A fetch environment whose latest endpoint answers a padded block
    number. *)
Definition fenv_padded : Snapshot.FEnv :=
  {| Snapshot.latest := Snapshot.LResp 200 (" " +:+ "12345" +:+ String "010" "");
     Snapshot.archive_resps := []; Snapshot.mkdir_ok := true; Snapshot.create_ok := true;
     Snapshot.mkdir_data_ok := true; Snapshot.extract_ok := true;
     Snapshot.rm_archive_ok := true; Snapshot.rmall_ok := true; Snapshot.marker_ok := true |}.

(** An overlay environment on platform [p] where every call succeeds
    except possibly [os.RemoveAll]. *)
Definition oenv_with (p : Platform) (rmall : bool) : OEnv :=
  {| platform := p; stat := fun _ => StDir; now := 1700000000;
     created_at := 1700000000; mkdir_ok := true; mount_res := MountOk;
     umount_ok := true; umount_lazy_ok := true; umount_force_ok := true;
     rmall_ok := rmall; write_ok := true; remove_ok := true; read_ok := true |}.


(** Two lines of [/proc/mounts]. *)
Definition me_merged : MountEntry :=
  {| me_dev := "overlay"; me_dir := "/o/abcdef123456_1/merged";
     me_type := "overlay"; me_opts := "rw" |}.
Definition me_proc : MountEntry :=
  {| me_dev := "proc"; me_dir := "/proc"; me_type := "proc"; me_opts := "rw" |}.

End MoreSamples.

(** * Properties of the snapshot fetcher *)
Module SnapshotFacts.
Import Snapshot SnapshotProps.

Lemma downloadFile_ok_archive env url arch rs r a log rest :
  downloadFile env url arch rs = (r, a, log, rest) -> r = Ok tt -> a <> None.
Proof.
  revert arch r a log rest.
  induction rs as [|x rs IH]; intros arch r a log rest Hd Hr; simpl in Hd.
  - congruence.
  - destruct x as [|st cl body ok]; [congruence|].
    repeat case_match; simplify_eq; try congruence; eauto.
Qed.

Lemma downloadFile_keeps_archive env url arch rs r a log rest :
  downloadFile env url arch rs = (r, a, log, rest) ->
  (forall x, hd_error rs = Some x -> is416 x = false) ->
  arch <> None -> a <> None.
Proof.
  intros Hd Hno Harch. destruct rs as [|x rs]; simpl in Hd.
  - congruence.
  - specialize (Hno x eq_refl). destruct x as [|st cl body ok]; [congruence|].
    simpl in Hno. repeat case_match; simplify_eq; try congruence; lia.
Qed.


Lemma downloadFile_416 env url arch cl b ok rs :
  downloadFile env url arch (RResp 416 cl b ok :: rs) =
  (let '(r, a, log, rest) :=
     downloadFile env url (if rm_archive_ok env then None else arch) rs in
   (r, a,
    {| req_url := url;
       req_range := if 0 <? default 0 arch then Some (default 0 arch) else None |}
      :: log, rest)).
Proof. reflexivity. Qed.






(** [EnsureSnapshot] written through its first step [resolve_step]. *)
Lemma EnsureSnapshot_eq f cfg env st :
  EnsureSnapshot f cfg env st =
  let '(rb, log1) := resolve_step f cfg env in
  match rb with
  | Err err => (Err err, st, log1)
  | Ok block =>
      let dir := entry_dir f cfg block in
      if e_complete (entry_at st dir) then (Ok (join dir "data"), st, log1) else
      let '(r, e', log2) :=
        downloadSnapshot env (eff_base f cfg) (norm_network cfg) (norm_client cfg)
          block (entry_at st dir) in
      (match r with Ok _ => Ok (join dir "data") | Err err => Err err end,
       <[dir := e']> st, log1 ++ log2)
  end.
Proof. reflexivity. Qed.



End SnapshotFacts.

Module SnapshotClaims.
Import Snapshot SnapshotProps SnapshotFacts Samples.





(** C3 (counterexample): a second 416 is not a hard error: the download
    removes the file and retries again, and here succeeds on the third
    request. *)
Lemma C3_second_416_retried :
  downloadFile (mk_env [] true true) "https://snapshots.ethpandaops.io/mainnet/geth/100/snapshot.tar.zst"
    (Some 100) [RResp 416 0 0 true; RResp 416 0 0 true; RResp 200 10 10 true] =
  (Ok tt, Some 10,
   [{| req_url := "https://snapshots.ethpandaops.io/mainnet/geth/100/snapshot.tar.zst"; req_range := Some 100 |};
    {| req_url := "https://snapshots.ethpandaops.io/mainnet/geth/100/snapshot.tar.zst"; req_range := None |};
    {| req_url := "https://snapshots.ethpandaops.io/mainnet/geth/100/snapshot.tar.zst"; req_range := None |}], []).
Proof. reflexivity. Qed.

(** C3 (amended): on each 416 answer [downloadFile] removes the local file
    and calls itself again, with no bound: after [S n] answers 416 (and
    successful removals) it has sent the first request (ranged if a partial
    file existed) and [n] unranged ones, and goes on exactly as a fresh
    download on the remaining answers. *)
Theorem C3_416_unbounded_retry env url arch n cl b ok rs :
  rm_archive_ok env = true ->
  downloadFile env url arch (repeat (RResp 416 cl b ok) (S n) ++ rs) =
  (let '(r, a, log, rest) := downloadFile env url None rs in
   (r, a,
    {| req_url := url;
       req_range := if 0 <? default 0 arch then Some (default 0 arch) else None |}
      :: repeat {| req_url := url; req_range := None |} n ++ log,
    rest)).
Proof.
  intros Hrm. revert arch. induction n as [|n IH]; intros arch.
  - simpl. rewrite Hrm. by destruct (downloadFile env url None rs) as [[[r a] log] rest].
  - change (repeat (RResp 416 cl b ok) (S (S n)) ++ rs)
      with (RResp 416 cl b ok :: (repeat (RResp 416 cl b ok) (S n) ++ rs)).
    rewrite downloadFile_416, Hrm, (IH None).
    by destruct (downloadFile env url None rs) as [[[r a] log] rest].
Qed.

(** C4 (counterexample): a download that fails after a 416 answer has
    already removed the partial archive; and the [hivesim] manager removes
    the whole entry, archive included, when the download fails. *)
Lemma C4_archive_lost_on_failed_download :
  (let '(r, e', _) :=
     downloadSnapshot (mk_env [RResp 416 0 0 true; RTransportErr] true true)
       DefaultBaseURL "mainnet" "geth" "100" partial_entry in
   r = Err (EDownload DTransport) /\ e_archive e' = None) /\
  (let '(r, e', _) :=
     Hivesim.downloadSnapshot (mk_env [RTransportErr] true true)
       DefaultBaseURL "mainnet" "geth" "100" partial_entry in
   r = Err (EDownload DTransport) /\ e_archive e' = None).
Proof. vm_compute. repeat split. Qed.

(** C4 (amended): in the fetcher, a failed download whose first answer is
    not a 416 keeps an existing archive, and a failed extraction keeps the
    archive and removes [data/] (when [RemoveAll] succeeds); the [hivesim]
    manager instead wipes the whole entry on a failed download, [data/]
    creation or extraction (when [RemoveAll] succeeds). *)
Theorem C4_archive_kept_on_failure env b n c k e :
  (forall r e' log, downloadSnapshot env b n c k e = (r, e', log) ->
   (forall d, r = Err (EDownload d) ->
     (forall x, hd_error (archive_resps env) = Some x -> is416 x = false) ->
     e_archive e <> None -> e_archive e' <> None) /\
   (r = Err EExtract -> e_archive e' <> None /\
     (rmall_ok env = true -> e_data e' = false))) /\
  (forall r e' log, Hivesim.downloadSnapshot env b n c k e = (r, e', log) ->
   ((exists d, r = Err (EDownload d)) \/ r = Err EMkdirData \/ r = Err EExtract) ->
   rmall_ok env = true -> e' = empty_entry).
Proof.
  split.
  - intros r e' log. unfold downloadSnapshot.
    destruct (mkdir_ok env); simpl; [|intros [= <- <- <-]; split; discriminate].
    destruct (downloadFile _ _ _ _) as [[[r0 a] log0] rest] eqn:Hd.
    destruct r0 as [[]|d0].
    + destruct (mkdir_data_ok env), (extract_ok env); simpl;
        intros [= <- <- <-]; split; try discriminate.
      intros _. split; [by eapply downloadFile_ok_archive|].
      intros ->. done.
    + intros [= <- <- <-]. split; [|discriminate].
      intros d _ Hno Harch. simpl. by eapply downloadFile_keeps_archive.
  - intros r e' log. unfold Hivesim.downloadSnapshot.
    destruct (mkdir_ok env); simpl;
      [|intros [= <- <- <-] [[d Hd]|[Hd|Hd]]; discriminate].
    destruct (Hivesim.downloadFile _ _ _) as [[r0 a] log0].
    intros Hds Hr Hrm. rewrite Hrm in Hds.
    destruct r0 as [[]|d0];
      [destruct (mkdir_data_ok env), (extract_ok env)|]; simpl in Hds;
      simplify_eq; try done.
    destruct Hr as [[d Hd]|[Hd|Hd]]; discriminate.
Qed.

End SnapshotClaims.

(** * Properties of the overlay manager *)
Module OverlayFacts.
Import Overlay OverlayProps.

Lemma cleanupDirs_spec env s m r s' :
  cleanupDirs env s m = (r, s') ->
  overlays s' = overlays s /\ state_file s' = state_file s /\
  dirs s' ⊆ dirs s /\ mounted s' = mounted s /\
  (r = Ok tt -> ID m ∉ dirs s').
Proof.
  unfold cleanupDirs. destruct (rmall_ok env); intros [= <- <-]; simpl;
    repeat split; try set_solver; discriminate.
Qed.

Lemma cleanupDirs_after env s s1 m r s' :
  overlays s1 = overlays s -> state_file s1 = state_file s ->
  dirs s1 = dirs s -> mounted s1 ⊆ mounted s ->
  cleanupDirs env s1 m = (r, s') ->
  overlays s' = overlays s /\ state_file s' = state_file s /\
  dirs s' ⊆ dirs s /\ mounted s' ⊆ mounted s /\
  (r = Ok tt -> ID m ∉ dirs s').
Proof.
  intros E1 E2 E3 E4 Hc. apply cleanupDirs_spec in Hc as (Q1 & Q2 & Q3 & Q4 & Q5).
  rewrite Q1, Q2, Q4, <- E3. auto.
Qed.

Lemma cleanupMount_spec env s m r s' :
  cleanupMount env s m = (r, s') ->
  overlays s' = overlays s /\ state_file s' = state_file s /\
  dirs s' ⊆ dirs s /\ mounted s' ⊆ mounted s /\
  (r = Ok tt -> ID m ∉ dirs s').
Proof.
  unfold cleanupMount.
  destruct (platform env); [|intros [= <- <-]; repeat split; done].
  destruct (isMounted s (MergedDir m)), (umount_ok env), (umount_lazy_ok env),
    (umount_force_ok env); simpl;
    first [ intros [= <- <-]; repeat split; done
          | apply cleanupDirs_after; [done|done|done|];
            unfold unmount; simpl; set_solver ].
Qed.

Lemma cleanupMount_escalation_fails env s m :
  platform env = Linux -> MergedDir m ∈ mounted s ->
  umount_ok env = false -> umount_lazy_ok env = false ->
  umount_force_ok env = false ->
  cleanupMount env s m = (Err ErrUnmountFailed, s).
Proof.
  intros Hp Hm H1 H2 H3. unfold cleanupMount, isMounted.
  rewrite Hp, H1, H2, H3, bool_decide_true by done. done.
Qed.

Lemma cleanupMount_succeeds env s m :
  cleanup_would_succeed env s m -> fst (cleanupMount env s m) = Ok tt.
Proof.
  intros (Hp & Hrm & Hc). unfold cleanupMount, cleanupDirs, isMounted.
  rewrite Hp, Hrm. destruct Hc as [Hn|Hu].
  - by rewrite bool_decide_false.
  - case_bool_decide; [|done]. simpl.
    destruct (umount_ok env), (umount_lazy_ok env), (umount_force_ok env);
      done.
Qed.

Lemma cleanup_would_succeed_mono env s s' m :
  mounted s' ⊆ mounted s -> cleanup_would_succeed env s m ->
  cleanup_would_succeed env s' m.
Proof. intros Hsub (Hp & Hrm & Hc). repeat split; auto. set_solver. Qed.

Lemma cleanup_each_spec env ms lastErr s le s' :
  cleanup_each env ms lastErr s = (le, s') ->
  overlays s' = overlays s /\ state_file s' = state_file s /\
  dirs s' ⊆ dirs s /\ mounted s' ⊆ mounted s /\
  (forall c m, (c, m) ∈ ms -> cleanup_would_succeed env s m -> ID m ∉ dirs s').
Proof.
  revert lastErr s. induction ms as [|[c m] ms IH]; intros lastErr s Hc; simpl in Hc.
  - injection Hc as <- <-. repeat split; try done.
    intros c m Hin. by apply not_elem_of_nil in Hin.
  - destruct (cleanupMount env s m) as [r s1] eqn:Hm.
    apply IH in Hc as (H1 & H2 & H3 & H4 & H5).
    apply cleanupMount_spec in Hm as Hm'. destruct Hm' as (G1 & G2 & G3 & G4 & G5).
    split; [by rewrite H1, G1|]. split; [by rewrite H2, G2|].
    split; [by trans (dirs s1)|]. split; [by trans (mounted s1)|].
    intros c' m' Hin Hs. apply elem_of_cons in Hin as [Heq|Hin].
    + injection Heq as <- <-. pose proof (cleanupMount_succeeds _ _ _ Hs) as Hok.
      rewrite Hm in Hok. simpl in Hok. specialize (G5 Hok).
      intros Hin. apply G5, H3, Hin.
    + apply (H5 c' m' Hin). by eapply cleanup_would_succeed_mono.
Qed.

Lemma persistState_spec env s :
  overlays (persistState env s) = overlays s /\ dirs (persistState env s) = dirs s /\
  mounted (persistState env s) = mounted s /\ BaseDir (persistState env s) = BaseDir s.
Proof.
  unfold persistState, remove_state.
  repeat case_match; repeat split; done.
Qed.

Lemma persistState_synced env s :
  write_ok env = true -> remove_ok env = true -> synced (persistState env s).
Proof.
  intros Hw Hr. unfold synced, persistState, remove_state. rewrite Hr, Hw.
  destruct (size (overlays s) =? 0)%nat eqn:E; simpl; rewrite ?E; done.
Qed.


Lemma remove_state_spec env s :
  overlays (remove_state env s) = overlays s /\ dirs (remove_state env s) = dirs s /\
  mounted (remove_state env s) = mounted s /\
  (remove_ok env = true -> state_file (remove_state env s) = None).
Proof. unfold remove_state. destruct (remove_ok env); repeat split; done. Qed.

Lemma CreateOverlay_fail_frame env cid cfg s e s' :
  CreateOverlay env cid cfg s = (Fail e, s') ->
  overlays s' = overlays s /\ state_file s' = state_file s /\
  mounted s' = mounted s /\
  (rmall_ok env = true -> overlay_id cid (now env) ∉ dirs s -> dirs s' = dirs s).
Proof.
  unfold CreateOverlay.
  destruct (overlays s !! cid); [intros [= <- <-]; done|].
  destruct (stat env (SnapshotPath cfg)); try (intros [= <- <-]; done).
  destruct (String.length cid <? 12)%nat; [discriminate|].
  set (oid := overlay_id cid (now env)).
  destruct (mkdir_ok env); simpl;
    [destruct (mountOverlay _ _ _); [discriminate|]|];
    intros [= <- <-]; destruct (rmall_ok env); simpl;
    repeat split; try done; intros _ Hn; set_solver.
Qed.

(** A [cleanupMount] of any mount [m'] keeps the directory of a mount [m]
    whose own cleanup would fail, unless [m'] has the ID of [m] and is
    another mount. *)
Lemma cleanupMount_keeps env s m m' r s1 :
  cleanupMount env s m' = (r, s1) ->
  ID m ∈ dirs s -> ~ cleanup_would_succeed env s m ->
  (ID m' = ID m -> m' = m) ->
  ID m ∈ dirs s1 /\ ~ cleanup_would_succeed env s1 m.
Proof.
  intros Hc Hin Hn Hsame. unfold cleanupMount in Hc.
  destruct (platform env) eqn:Hp.
  2:{ injection Hc as _ <-. done. }
  destruct (rmall_ok env) eqn:Hrm.
  - assert (Hmd : MergedDir m ∈ mounted s).
    { destruct (decide (MergedDir m ∈ mounted s)) as [|Hno]; [done|].
      exfalso. apply Hn. repeat split; auto. }
    assert (Hu : (umount_ok env || umount_lazy_ok env || umount_force_ok env) = false).
    { destruct (umount_ok env || umount_lazy_ok env || umount_force_ok env) eqn:E; [|done].
      exfalso. apply Hn. repeat split; auto. }
    apply orb_false_iff in Hu as [Hu Hf]. apply orb_false_iff in Hu as [Hu Hl].
    rewrite Hu, Hl, Hf in Hc. unfold isMounted in Hc.
    destruct (decide (MergedDir m' ∈ mounted s)) as [Hm'|Hm'].
    + rewrite bool_decide_true in Hc by done. simpl in Hc. injection Hc as _ <-. done.
    + rewrite bool_decide_false in Hc by done. simpl in Hc.
      unfold cleanupDirs in Hc. rewrite Hrm in Hc. injection Hc as _ <-. simpl.
      assert (ID m' <> ID m) by (intros E; apply Hm'; by rewrite (Hsame E)).
      split; [set_solver|exact Hn].
  - revert Hc. unfold cleanupDirs. rewrite Hrm.
    destruct (isMounted s (MergedDir m')), (umount_ok env), (umount_lazy_ok env),
      (umount_force_ok env); simpl; intros [= _ <-]; simpl;
      (split; [done|intros (_ & Hr & _); congruence]).
Qed.

Lemma cleanup_each_keeps env m ms lastErr s le s' :
  cleanup_each env ms lastErr s = (le, s') ->
  ID m ∈ dirs s -> ~ cleanup_would_succeed env s m ->
  (forall c' m', (c', m') ∈ ms -> ID m' = ID m -> m' = m) ->
  ID m ∈ dirs s'.
Proof.
  revert lastErr s. induction ms as [|[c0 m0] ms IH];
    intros lastErr s Hc Hin Hn Hu; simpl in Hc.
  - by injection Hc as _ <-.
  - destruct (cleanupMount env s m0) as [r s1] eqn:Hm.
    destruct (cleanupMount_keeps _ _ _ _ _ _ Hm Hin Hn) as [H1 H2].
    { intros E. apply (Hu c0); [apply elem_of_cons; by left|done]. }
    apply (IH _ _ Hc H1 H2). intros c' m' Hin' E.
    apply (Hu c'); [apply elem_of_cons; by right|done].
Qed.

End OverlayFacts.

Module OverlayClaims.
Import Overlay OverlayProps OverlayFacts.



(** C6: when the unmount escalation of a registered container fails at
    every step, [CleanupOverlay] returns [ErrUnmountFailed] and changes
    nothing; on any error the registry entry and [state.json] are kept; the
    entry is gone only after a successful [cleanupMount]. *)
Theorem C6_cleanup_unmount_failed env c s m :
  overlays s !! c = Some m ->
  (platform env = Linux -> MergedDir m ∈ mounted s ->
   umount_ok env = false -> umount_lazy_ok env = false ->
   umount_force_ok env = false ->
   CleanupOverlay env c s = (Err ErrUnmountFailed, s)) /\
  (forall e s', CleanupOverlay env c s = (Err e, s') ->
   overlays s' !! c = Some m /\ overlays s' = overlays s /\
   state_file s' = state_file s) /\
  (forall r s', CleanupOverlay env c s = (r, s') -> overlays s' !! c = None ->
   r = Ok tt /\ fst (cleanupMount env s m) = Ok tt).
Proof.
  intros Hreg. unfold CleanupOverlay. rewrite Hreg. split; [|split].
  - intros Hp Hm H1 H2 H3. by rewrite cleanupMount_escalation_fails.
  - intros e s'. destruct (cleanupMount env s m) as [[[]|e0] s0] eqn:Hc; [discriminate|].
    intros [= <- <-]. apply cleanupMount_spec in Hc as (G1 & G2 & _).
    by rewrite G1, G2.
  - intros r s'. destruct (cleanupMount env s m) as [[[]|e0] s0] eqn:Hc.
    + intros [= <- <-] _. done.
    + intros [= <- <-]. apply cleanupMount_spec in Hc as (G1 & _).
      rewrite G1, Hreg. discriminate.
Qed.

(** C7: [CleanupOverlay] of an unregistered container succeeds and changes
    nothing; after a successful [CleanupOverlay c], [GetOverlay c] finds
    nothing, the overlay tree of the removed mount is gone, and another
    [CleanupOverlay c] succeeds without change. *)
Theorem C7_cleanup_idempotent env c s :
  (overlays s !! c = None -> CleanupOverlay env c s = (Ok tt, s)) /\
  (forall s', CleanupOverlay env c s = (Ok tt, s') ->
   GetOverlay c s' = None /\
   (forall m, overlays s !! c = Some m -> ID m ∉ dirs s') /\
   (forall env', CleanupOverlay env' c s' = (Ok tt, s'))).
Proof.
  split; [intros Hn; unfold CleanupOverlay; by rewrite Hn|].
  intros s'. unfold CleanupOverlay, GetOverlay.
  destruct (overlays s !! c) as [m|] eqn:Hreg.
  - destruct (cleanupMount env s m) as [[[]|e0] s0] eqn:Hc; [|discriminate].
    intros [= <-]. apply cleanupMount_spec in Hc as (_ & _ & _ & _ & G5).
    specialize (G5 eq_refl).
    destruct (persistState_spec env (with_overlays s0 (delete c (overlays s0))))
      as (P1 & P2 & _).
    rewrite P1. simpl. rewrite lookup_delete_eq. split; [done|]. split.
    + intros m' [= <-]. by rewrite P2.
    + intros env'. done.
  - intros Heq. assert (s' = s) as -> by congruence. rewrite Hreg.
    split; [done|]. split; [intros m Hm; discriminate|]. intros env'. done.
Qed.



(** C9 (counterexample): an orphan whose unmount fails at every step is
    logged and skipped: [RecoverOrphanedMounts] returns without error and
    removes [state.json], but the orphan's directory tree is still there. *)
Lemma C9_orphan_tree_survives :
  let '(r, s') := RecoverOrphanedMounts (mk_oenv StDir false true) s_orphan in
  r = Ok tt /\ state_file s' = None /\
  bool_decide (ID m_orphan ∈ dirs s') = true.
Proof. vm_compute. repeat split. Qed.

(** C9 (amended): [RecoverOrphanedMounts] never changes the registry;
    without [state.json] it does nothing; if reading it fails it returns
    the error and does nothing; otherwise it returns without error, removes
    [state.json] (when the removal succeeds), and removes the tree of every
    recorded mount whose cleanup succeeds; a recorded mount whose cleanup
    fails keeps its tree, when the recorded IDs are distinct plain path
    components (not empty, no [/], not [.] or [..], so that their trees
    are disjoint directories of the overlay root). *)
Theorem C9_recover_orphans env s r s' :
  RecoverOrphanedMounts env s = (r, s') ->
  overlays s' = overlays s /\
  (state_file s = None -> r = Ok tt /\ s' = s) /\
  (state_file s <> None -> read_ok env = false -> r = Err ErrReadState /\ s' = s) /\
  (state_file s <> None -> read_ok env = true ->
   r = Ok tt /\ (remove_ok env = true -> state_file s' = None)) /\
  (forall st c m, state_file s = Some (SValid st) -> read_ok env = true ->
   st !! c = Some m -> cleanup_would_succeed env s m -> ID m ∉ dirs s') /\
  (forall st c m, state_file s = Some (SValid st) -> read_ok env = true ->
   st !! c = Some m -> ID m ∈ dirs s -> ~ cleanup_would_succeed env s m ->
   map_Forall (fun _ m' => MoreProps.plain_id (ID m') = true) st ->
   (forall c' m', st !! c' = Some m' -> ID m' = ID m -> c' = c) ->
   ID m ∈ dirs s').
Proof.
  unfold RecoverOrphanedMounts.
  destruct (state_file s) as [f|] eqn:Hf.
  - destruct (read_ok env) eqn:Hr; simpl.
    + destruct f as [st|].
      * destruct (cleanup_each _ _ _ _) as [le s1] eqn:Hce. intros [= <- <-].
        pose proof Hce as Hce0.
        apply cleanup_each_spec in Hce as (Q1 & Q2 & Q3 & Q4 & Q5).
        destruct (remove_state_spec env s1) as (R1 & R2 & R3 & R4).
        rewrite R1, R2. split; [done|]. split; [discriminate|].
        split; [intros _ [=]|]. split; [done|].
        split.
        { intros st' c m [= <-] _ Hm Hs. apply (Q5 c m); [|done].
          by apply elem_of_map_to_list. }
        intros st' c m [= <-] _ Hm Hin Hn _ Hu.
        apply (cleanup_each_keeps _ _ _ _ _ _ _ Hce0 Hin Hn).
        intros c' m' Hl E. apply elem_of_map_to_list in Hl.
        rewrite (Hu c' m' Hl E) in Hl. congruence.
      * intros [= <- <-].
        destruct (remove_state_spec env s) as (R1 & R2 & R3 & R4).
        rewrite R1. split; [done|]. split; [discriminate|].
        split; [intros _ [=]|]. split; [done|]. split; intros st c m [=].
    + intros [= <- <-]. split; [done|]. split; [discriminate|].
      split; [done|]. split; [intros _ [=]|]. split; intros st c m _ [=].
  - intros [= <- <-]. split; [done|]. split; [done|].
    split; [intros []; done|]. split; [intros []; done|]. split; intros st c m [=].
Qed.

(** C10: a container ID shorter than 12 bytes makes [CreateOverlay] panic
    on [containerID[:12]] even though the container is not registered and
    the snapshot path is a directory; nothing has changed at that point. *)
Theorem C10_short_id_panics env cid cfg s :
  overlays s !! cid = None -> stat env (SnapshotPath cfg) = StDir ->
  (String.length cid < 12)%nat ->
  CreateOverlay env cid cfg s = (Panic, s).
Proof.
  intros Hn Hs Hl. unfold CreateOverlay. rewrite Hn, Hs.
  apply Nat.ltb_lt in Hl. by rewrite Hl.
Qed.

End OverlayClaims.

(** * Lemmas for the further properties *)

Module StringFacts.
Import MoreProps.

Abbreviation las := String.list_ascii_of_string.

Lemma app_String c (a b : string) : String c a +:+ b = String c (a +:+ b).
Proof. reflexivity. Qed.

Lemma app_Empty (b : string) : "" +:+ b = b.
Proof. reflexivity. Qed.

Ltac sapp := rewrite ?app_String, ?app_Empty.

Lemma string_app_assoc (a b c : string) : (a +:+ b) +:+ c = a +:+ (b +:+ c).
Proof. induction a as [|x a IH]; sapp; [done|by rewrite IH]. Qed.

Lemma string_app_nil_r (a : string) : a +:+ "" = a.
Proof. induction a as [|x a IH]; sapp; [done|by rewrite IH]. Qed.

Lemma las_app (a b : string) : las (a +:+ b) = las a ++ las b.
Proof. induction a as [|x a IH]; sapp; simpl; [done|by rewrite IH]. Qed.

Lemma las_inj (a b : string) : las a = las b -> a = b.
Proof.
  intros H. rewrite <- (String.string_of_list_ascii_of_string a),
    <- (String.string_of_list_ascii_of_string b), H. done.
Qed.

Lemma string_app_inv_tail (a b c : string) : a +:+ c = b +:+ c -> a = b.
Proof.
  intros H. apply las_inj. apply (f_equal las) in H. rewrite !las_app in H.
  by apply List.app_inv_tail in H.
Qed.

Lemma length_las s : String.length s = length (las s).
Proof. induction s as [|x s IH]; simpl; auto. Qed.

Lemma join_last_inj p x y : join p x = join p y -> x = y.
Proof. unfold join. intros H. apply String.app_inj in H. by injection H. Qed.

Lemma join_mid_inj b x y z : join (join b x) z = join (join b y) z -> x = y.
Proof.
  unfold join. rewrite !string_app_assoc. intros H.
  apply String.app_inj in H. rewrite !app_String, !app_Empty in H. injection H as H.
  by apply string_app_inv_tail in H.
Qed.

Lemma has_char_app p a b : has_char p (a +:+ b) = has_char p a || has_char p b.
Proof. unfold has_char. by rewrite las_app, existsb_app. Qed.

End StringFacts.

Module SnapshotMoreFacts.
Import Snapshot SnapshotProps SnapshotFacts MoreProps StringFacts.

(** ** [strings.ToLower] and [mapClientName] *)

Lemma lower_ascii_idem c : lower_ascii (lower_ascii c) = lower_ascii c.
Proof. destruct c as [[] [] [] [] [] [] [] []]; reflexivity. Qed.

Lemma lower_ascii_underscore c :
  Ascii.eqb (lower_ascii c) "_"%char = Ascii.eqb c "_"%char.
Proof. destruct c as [[] [] [] [] [] [] [] []]; reflexivity. Qed.

Lemma ToLower_idem s : ToLower (ToLower s) = ToLower s.
Proof. induction s as [|c s IH]; simpl; [done|by rewrite lower_ascii_idem, IH]. Qed.

Lemma index_underscore_ToLower s : index_underscore (ToLower s) = index_underscore s.
Proof.
  induction s as [|c s IH]; simpl; [done|]. by rewrite lower_ascii_underscore, IH.
Qed.

Lemma substring_ToLower n s :
  String.substring 0 n (ToLower s) = ToLower (String.substring 0 n s).
Proof.
  revert n. induction s as [|c s IH]; intros [|n]; simpl; try done. by rewrite IH.
Qed.

Lemma index_underscore_range s : index_underscore s = -1 \/ 0 <= index_underscore s.
Proof.
  induction s as [|c s IH]; simpl; [by left|].
  destruct (Ascii.eqb c "_"); [right; lia|].
  destruct (index_underscore s <? 0) eqn:E; [by left|]. apply Z.ltb_ge in E. right; lia.
Qed.

Lemma index_underscore_app_gen b u :
  index_underscore b = -1 -> index_underscore u = 0 ->
  index_underscore (b +:+ u) = Z.of_nat (String.length b).
Proof.
  intros Hb Hu. induction b as [|c b IH]; sapp; simpl in *; [done|].
  destruct (Ascii.eqb c "_"); [discriminate|].
  destruct (index_underscore_range b) as [Hb'|Hb'].
  - rewrite IH by done.
    destruct (Z.of_nat (String.length b) <? 0) eqn:E; [apply Z.ltb_lt in E; lia|]. lia.
  - destruct (index_underscore b <? 0) eqn:E; [apply Z.ltb_lt in E; lia|]. lia.
Qed.

Lemma index_underscore_app b t :
  index_underscore b = -1 ->
  index_underscore (b +:+ "_" +:+ t) = Z.of_nat (String.length b).
Proof. intros Hb. by apply index_underscore_app_gen. Qed.

Lemma substring_app_prefix b x : String.substring 0 (String.length b) (b +:+ x) = b.
Proof. induction b as [|c b IH]; sapp; simpl; [by destruct x|by rewrite IH]. Qed.

Lemma index_underscore_prefix x n :
  (index_underscore x < 0 \/ Z.of_nat n <= index_underscore x) ->
  index_underscore (String.substring 0 n x) = -1.
Proof.
  revert n. induction x as [|c x IH]; intros [|n] Hx; simpl; try done.
  simpl in Hx. destruct (Ascii.eqb c "_") eqn:Ec; [lia|].
  rewrite IH; [done|].
  destruct (index_underscore x <? 0) eqn:E; [apply Z.ltb_lt in E; by left|].
  apply Z.ltb_ge in E. right. lia.
Qed.

Lemma mapClientName_tag b t :
  b <> "" -> index_underscore b = -1 ->
  mapClientName (b +:+ "_" +:+ t) = mapClientName b.
Proof.
  intros Hb Hi. unfold mapClientName. rewrite index_underscore_app by done. rewrite Hi.
  assert (Hl : 0 < Z.of_nat (String.length b)) by (destruct b; [done|simpl; lia]).
  apply Z.ltb_lt in Hl. rewrite Hl. simpl (0 <? -1).
  rewrite Nat2Z.id, substring_app_prefix. done.
Qed.

Lemma norm_client_ToLower c :
  ToLower (mapClientName (ToLower c)) = ToLower (mapClientName c).
Proof.
  unfold mapClientName. rewrite index_underscore_ToLower.
  set (bn := if 0 <? index_underscore c
             then String.substring 0 (Z.to_nat (index_underscore c)) c else c).
  assert (Hb : (if 0 <? index_underscore c
                then String.substring 0 (Z.to_nat (index_underscore c)) (ToLower c)
                else ToLower c) = ToLower bn).
  { unfold bn. destruct (0 <? index_underscore c); [apply substring_ToLower|done]. }
  rewrite Hb, ToLower_idem.
  repeat match goal with |- context [if ?b then _ else _] => destruct b end;
    rewrite ?ToLower_idem; done.
Qed.


(** ** [strings.TrimSpace] on lists of bytes *)

Lemma las_String c s : las (String c s) = c :: las s.
Proof. reflexivity. Qed.

Lemma las_rev_string s : las (rev_string s) = rev (las s).
Proof. unfold rev_string. apply String.list_ascii_of_string_of_list_ascii. Qed.

Lemma rev_string_involutive s : rev_string (rev_string s) = s.
Proof. apply las_inj. by rewrite !las_rev_string, rev_involutive. Qed.

Lemma rev_string_app a b : rev_string (a +:+ b) = rev_string b +:+ rev_string a.
Proof. apply las_inj. by rewrite las_rev_string, !las_app, !las_rev_string, rev_app_distr. Qed.

Lemma forallb_rev {A} (f : A -> bool) l : forallb f (rev l) = forallb f l.
Proof.
  induction l as [|x l IH]; simpl; [done|].
  rewrite forallb_app, IH. simpl. by rewrite andb_true_r, andb_comm.
Qed.

Lemma las_trim_left s :
  exists p, las s = p ++ las (trim_left s) /\ forallb is_space p = true /\
    match las (trim_left s) with [] => True | d :: _ => is_space d = false end.
Proof.
  induction s as [|c s IH]; simpl.
  - by exists [].
  - destruct (is_space c) eqn:Ec.
    + destruct IH as (p & H1 & H2 & H3). exists (c :: p). simpl. rewrite H1, Ec, H2. done.
    + exists []. simpl. done.
Qed.

Lemma trim_left_app_spaces w s :
  forallb is_space (las w) = true -> trim_left (w +:+ s) = trim_left s.
Proof.
  induction w as [|c w IH]; sapp; simpl; [done|].
  intros H. apply andb_prop in H as [H1 H2]. rewrite H1. auto.
Qed.

Lemma trim_left_keep s :
  match las s with [] => True | d :: _ => is_space d = false end -> trim_left s = s.
Proof. destruct s as [|c s]; simpl; [done|]. intros H. by rewrite H. Qed.

Lemma last_cons_shift (l : list ascii) e x : List.last (e :: l) x = List.last l e.
Proof.
  revert e x. induction l as [|a l IH]; intros e x; [done|].
  change (List.last (e :: a :: l) x) with (List.last (a :: l) x). by rewrite !IH.
Qed.

Lemma rev_cons_last (l : list ascii) c : exists t, rev (c :: l) = List.last l c :: t.
Proof.
  pose proof (app_removelast_last (l := c :: l) c ltac:(discriminate)) as H.
  rewrite last_cons_shift in H. exists (rev (removelast (c :: l))).
  rewrite H at 1. rewrite rev_app_distr. reflexivity.
Qed.

Lemma length_substring_le n s : (String.length (String.substring 0 n s) <= n)%nat.
Proof.
  revert n. induction s as [|c s IH]; intros [|n]; simpl; try lia. specialize (IH n). lia.
Qed.

Lemma length_trim_left_le s : (String.length (trim_left s) <= String.length s)%nat.
Proof.
  rewrite !length_las. destruct (las_trim_left s) as (p & H1 & _). rewrite H1, length_app. lia.
Qed.

Lemma length_rev_string s : String.length (rev_string s) = String.length s.
Proof. by rewrite !length_las, las_rev_string, length_rev. Qed.

Lemma length_TrimSpace_le s : (String.length (TrimSpace s) <= String.length s)%nat.
Proof.
  unfold TrimSpace. rewrite length_rev_string.
  etransitivity; [apply length_trim_left_le|].
  rewrite length_rev_string. apply length_trim_left_le.
Qed.

Lemma TrimSpace_trimmed s : TrimSpace s <> "" -> trimmed (TrimSpace s) = true.
Proof.
  unfold TrimSpace, trimmed. set (y := trim_left s). set (z := trim_left (rev_string y)).
  intros Hne.
  destruct (las_trim_left s) as (p0 & Hs & _ & Hy). fold y in Hs, Hy.
  destruct (las_trim_left (rev_string y)) as (p & Hw & _ & Hz). fold z in Hw, Hz.
  rewrite las_rev_string.
  destruct (las z) as [|d q] eqn:Ez.
  { exfalso. apply Hne. apply las_inj. by rewrite las_rev_string, Ez. }
  rewrite las_rev_string in Hw.
  assert (Hly : las y = rev q ++ [d] ++ rev p).
  { rewrite <- (rev_involutive (las y)), Hw, rev_app_distr. simpl. by rewrite <- app_assoc. }
  simpl. destruct (rev q ++ [d]) as [|e l] eqn:Eq.
  { by destruct (rev q). }
  rewrite Hly, app_assoc, Eq in Hy. simpl in Hy. rewrite Hy. simpl.
  rewrite <- (last_cons_shift l e e), <- Eq, List.last_last. by rewrite Hz.
Qed.

Lemma substring_app_le a x n :
  (String.length a <= n)%nat ->
  String.substring 0 n (a +:+ x) = a +:+ String.substring 0 (n - String.length a) x.
Proof.
  revert n. induction a as [|c a IH]; intros n Hn; sapp; simpl in *.
  - by rewrite Nat.sub_0_r.
  - destruct n as [|n]; [lia|]. simpl. rewrite IH by lia. done.
Qed.

Lemma forallb_substring f n w :
  forallb f (las w) = true -> forallb f (las (String.substring 0 n w)) = true.
Proof.
  revert n. induction w as [|c w IH]; intros [|n]; simpl; try done.
  intros H. apply andb_prop in H as [H1 H2]. rewrite H1. simpl. auto.
Qed.

Lemma TrimSpace_roundtrip ws1 b ws2 n :
  forallb is_space (las ws1) = true -> forallb is_space (las ws2) = true ->
  trimmed b = true -> (String.length ws1 + String.length b <= n)%nat ->
  TrimSpace (String.substring 0 n (ws1 +:+ b +:+ ws2)) = b.
Proof.
  intros H1 H2 Hb Hn.
  rewrite substring_app_le by lia. rewrite substring_app_le by lia.
  set (w := String.substring 0 _ ws2).
  assert (Hw : forallb is_space (las w) = true) by (apply forallb_substring, H2).
  unfold trimmed in Hb. destruct (las b) as [|c l] eqn:Eb; [done|].
  apply andb_prop in Hb as [Hc Hl]. apply negb_true_iff in Hc, Hl.
  unfold TrimSpace. rewrite trim_left_app_spaces by done.
  rewrite (trim_left_keep (b +:+ w)) by (by rewrite las_app, Eb).
  rewrite rev_string_app, trim_left_app_spaces by (by rewrite las_rev_string, forallb_rev).
  rewrite trim_left_keep, rev_string_involutive; [done|].
  rewrite las_rev_string, Eb. destruct (rev_cons_last l c) as [t ->]. done.
Qed.

End SnapshotMoreFacts.

Module EnsureFacts.
Import Snapshot SnapshotProps SnapshotFacts MoreProps StringFacts SnapshotMoreFacts.

Lemma downloadSnapshot_ok_complete env b n c k e e' log :
  downloadSnapshot env b n c k e = (Ok tt, e', log) ->
  e_complete e' = e_complete e || marker_ok env.
Proof.
  unfold downloadSnapshot. destruct (negb (mkdir_ok env)); [congruence|].
  destruct (downloadFile _ _ _ _) as [[[r a] l] rest].
  destruct r; [|congruence].
  destruct (negb (mkdir_data_ok env)); [congruence|].
  destruct (negb (extract_ok env)); [congruence|].
  intros H. by injection H as <- _.
Qed.

Lemma snapshot_dir_last_inj cache n c b1 b2 :
  snapshot_dir cache n c b1 = snapshot_dir cache n c b2 -> b1 = b2.
Proof. apply join_last_inj. Qed.

(** Every answer [downloadFile] reads was asked for by a request. *)
Lemma downloadFile_log_nonempty env url arch rs r a log rest :
  downloadFile env url arch rs = (r, a, log, rest) -> log <> [].
Proof.
  revert arch r a log rest. induction rs as [|x rs IH]; intros arch r a log rest; simpl.
  - intros H. injection H as _ _ <- _. discriminate.
  - repeat case_match; intros Hdl; injection Hdl as _ _ <- _; discriminate.
Qed.

Lemma downloadSnapshot_ok_log env b n c k e e' log :
  downloadSnapshot env b n c k e = (Ok tt, e', log) -> log <> [].
Proof.
  unfold downloadSnapshot. destruct (negb (mkdir_ok env)); [congruence|].
  destruct (downloadFile _ _ _ _) as [[[r a] l] rest] eqn:Hd.
  apply downloadFile_log_nonempty in Hd.
  destruct r; [|congruence].
  destruct (negb (mkdir_data_ok env)); [congruence|].
  destruct (negb (extract_ok env)); [congruence|].
  intros H. by injection H as _ <-.
Qed.

Lemma join_neq_empty a b : join a b <> "".
Proof. unfold join. destruct a; cbv; discriminate. Qed.

End EnsureFacts.

Module HivesimFacts.
Import Snapshot SnapshotProps MoreProps StringFacts.

Lemma hivesim_downloadFile_log env url arch r a log :
  Hivesim.downloadFile env url arch = (r, a, log) ->
  log = [{| req_url := url; req_range := None |}].
Proof.
  unfold Hivesim.downloadFile.
  destruct (archive_resps env) as [|[|st cl body ok] rs];
    [intros Q; by injection Q as _ _ <-|intros Q; by injection Q as _ _ <-|].
  destruct (negb (st =? 200)); [intros Q; by injection Q as _ _ <-|].
  destruct (create_ok env); intros Q; by injection Q as _ _ <-.
Qed.

Lemma hivesim_downloadSnapshot_log_hd env b n c k e r e' log :
  mkdir_ok env = true ->
  Hivesim.downloadSnapshot env b n c k e = (r, e', log) ->
  log = [{| req_url := snapshot_url b n c k; req_range := None |}].
Proof.
  intros Hm. unfold Hivesim.downloadSnapshot. rewrite Hm. simpl negb. cbv iota.
  destruct (Hivesim.downloadFile _ _ _) as [[r1 a] l] eqn:Ed.
  apply hivesim_downloadFile_log in Ed. subst l.
  destruct r1; [|intros Q; by injection Q as _ _ <-].
  destruct (negb (mkdir_data_ok env)); [intros Q; by injection Q as _ _ <-|].
  destruct (negb (extract_ok env)); intros Q; by injection Q as _ _ <-.
Qed.

Lemma hivesim_downloadSnapshot_log env b n c k e r e' log :
  Hivesim.downloadSnapshot env b n c k e = (r, e', log) ->
  Forall (fun q => q = {| req_url := snapshot_url b n c k; req_range := None |}) log.
Proof.
  destruct (mkdir_ok env) eqn:Hm.
  - intros Hd. rewrite (hivesim_downloadSnapshot_log_hd _ _ _ _ _ _ _ _ _ Hm Hd). by repeat constructor.
  - unfold Hivesim.downloadSnapshot. rewrite Hm. intros Q. injection Q as _ _ <-. constructor.
Qed.


Lemma hivesim_downloadSnapshot_ok_data env b n c k e e' log :
  Hivesim.downloadSnapshot env b n c k e = (Ok tt, e', log) -> e_data e' = true.
Proof.
  unfold Hivesim.downloadSnapshot. destruct (negb (mkdir_ok env)); [congruence|].
  destruct (Hivesim.downloadFile _ _ _) as [[r1 a] l].
  destruct r1; [|congruence].
  destruct (negb (mkdir_data_ok env)); [congruence|].
  destruct (negb (extract_ok env)); [congruence|]. intros Q; by injection Q as <- _.
Qed.

Lemma hentry_at_insert_eq st k v : Hivesim.hentry_at (<[k:=v]> st) k = v.
Proof. unfold Hivesim.hentry_at. by rewrite lookup_insert_eq. Qed.

Lemma EnsureSnapshotAt_shape m env n c b st r st' log :
  Hivesim.EnsureSnapshotAt m env n c b st = (r, st', log) ->
  (forall p, r = Ok p ->
     p = join (snapshot_dir (Hivesim.CacheDir (Hivesim.config m)) (ToLower n) (ToLower c) b) "data") /\
  Forall (fun q => req_range q = None /\
     (req_url q = snapshot_url (Hivesim.BaseURL (Hivesim.config m)) (ToLower n) (ToLower c) b \/
      req_url q = Hivesim.metadata_url (Hivesim.BaseURL (Hivesim.config m)) (ToLower n) (ToLower c) b)) log.
Proof.
  unfold Hivesim.EnsureSnapshotAt.
  destruct (Hivesim.hentry_at st _) as [e meta].
  destruct (e_data e && meta).
  { intros Q. injection Q as <- _ <-. split; [intros p Q; by injection Q|constructor]. }
  destruct (Hivesim.downloadSnapshot _ _ _ _ _ _) as [[r1 e'] l] eqn:Ed.
  apply hivesim_downloadSnapshot_log in Ed.
  assert (Hl : Forall (fun q => req_range q = None /\
     (req_url q = snapshot_url (Hivesim.BaseURL (Hivesim.config m)) (ToLower n) (ToLower c) b \/
      req_url q = Hivesim.metadata_url (Hivesim.BaseURL (Hivesim.config m)) (ToLower n) (ToLower c) b)) l).
  { eapply Forall_impl; [exact Ed|]. intros q ->. simpl. auto. }
  destruct r1 as [[]|err]; intros Q; injection Q as <- _ <-.
  - split; [intros p Q; by injection Q|]. apply Forall_app. split; [done|]. constructor; [simpl; auto|constructor].
  - split; [intros p Q; discriminate Q|done].
Qed.

End HivesimFacts.

Module OverlayMoreFacts.
Import Overlay OverlayProps OverlayFacts MoreProps StringFacts.

Lemma cleanupMount_ok_exact env s m s' :
  cleanupMount env s m = (Ok tt, s') ->
  platform env = Linux /\ rmall_ok env = true /\
  overlays s' = overlays s /\ state_file s' = state_file s /\ BaseDir s' = BaseDir s /\
  dirs s' = dirs s ∖ {[ID m]} /\ mounted s' = mounted s ∖ {[MergedDir m]}.
Proof.
  unfold cleanupMount, cleanupDirs, isMounted, unmount.
  destruct (platform env); [|congruence].
  destruct (bool_decide (MergedDir m ∈ mounted s)) eqn:Hm.
  - apply bool_decide_eq_true in Hm. simpl negb. cbv iota.
    destruct (rmall_ok env) eqn:Hr;
      [|repeat (case_match; try congruence)].
    repeat (case_match; try congruence); intros Q; injection Q as <-; simpl; done.
  - apply bool_decide_eq_false in Hm. simpl negb. cbv iota.
    destruct (rmall_ok env); [|congruence]. intros Q; injection Q as <-. simpl.
    repeat split; try done. apply leibniz_equiv. set_solver.
Qed.

Lemma cleanupMount_err_exact env s m e s' :
  cleanupMount env s m = (Err e, s') ->
  overlays s' = overlays s /\ state_file s' = state_file s /\ BaseDir s' = BaseDir s /\
  dirs s' = dirs s /\
  (e = ErrRemoveAll -> platform env = Linux /\ mounted s' = mounted s ∖ {[MergedDir m]}) /\
  (e <> ErrRemoveAll -> s' = s).
Proof.
  unfold cleanupMount, cleanupDirs, isMounted, unmount.
  destruct (platform env).
  2:{ intros Q. injection Q as <- <-. repeat split; try done. }
  destruct (bool_decide (MergedDir m ∈ mounted s)) eqn:Hm.
  - apply bool_decide_eq_true in Hm. simpl negb. cbv iota.
    destruct (rmall_ok env) eqn:Hr.
    + repeat (case_match; try congruence); intros Q; injection Q as <- <-; repeat split; done.
    + repeat (case_match; try congruence); intros Q; injection Q as <- <-; repeat split; done.
  - apply bool_decide_eq_false in Hm. simpl negb. cbv iota.
    destruct (rmall_ok env); [congruence|]. intros Q; injection Q as <- <-.
    repeat split; try done. apply leibniz_equiv. set_solver.
Qed.

Lemma overlays_persistState env x : overlays (persistState env x) = overlays x.
Proof. apply persistState_spec. Qed.
Lemma dirs_persistState env x : dirs (persistState env x) = dirs x.
Proof. apply persistState_spec. Qed.
Lemma mounted_persistState env x : mounted (persistState env x) = mounted x.
Proof. apply persistState_spec. Qed.
Lemma BaseDir_persistState env x : BaseDir (persistState env x) = BaseDir x.
Proof. apply persistState_spec. Qed.

Lemma CreateOverlay_done_spec env cid cfg s m s' :
  CreateOverlay env cid cfg s = (Done m, s') ->
  overlays s !! cid = None /\ stat env (SnapshotPath cfg) = StDir /\
  (12 <= String.length cid)%nat /\ mkdir_ok env = true /\
  platform env = Linux /\ mount_res env = MountOk /\
  m = {| ID := overlay_id cid (now env); ContainerID := cid;
         LowerDir := SnapshotPath cfg;
         UpperDir := join (join (BaseDir s) (overlay_id cid (now env))) "upper";
         WorkDir := join (join (BaseDir s) (overlay_id cid (now env))) "work";
         MergedDir := join (join (BaseDir s) (overlay_id cid (now env))) "merged";
         ContainerPath := ContainerMountPath cfg; CreatedAt := created_at env |} /\
  overlays s' = <[cid := m]> (overlays s) /\ dirs s' = {[ID m]} ∪ dirs s /\
  mounted s' = {[MergedDir m]} ∪ mounted s /\ BaseDir s' = BaseDir s /\
  (write_ok env = true -> state_file s' = Some (SValid (overlays s'))) /\
  (write_ok env = false -> state_file s' = state_file s).
Proof.
  unfold CreateOverlay.
  destruct (overlays s !! cid) eqn:Hc; [congruence|].
  destruct (stat env (SnapshotPath cfg)) eqn:Hs; try congruence.
  destruct (String.length cid <? 12)%nat eqn:Hl; [congruence|].
  apply Nat.ltb_ge in Hl.
  destruct (mkdir_ok env) eqn:Hmk; [|simpl; congruence]. simpl negb. cbv iota.
  unfold mountOverlay. destruct (platform env) eqn:Hp; [|congruence].
  destruct (mount_res env) eqn:Hmr; try congruence.
  intros Q. injection Q as <- <-.
  rewrite overlays_persistState, dirs_persistState, mounted_persistState, BaseDir_persistState.
  simpl. repeat (split; [done|]).
  unfold persistState. simpl.
  rewrite (proj2 (Nat.eqb_neq _ _)).
  2:{ intros Hz. apply map_size_empty_iff in Hz. by apply insert_non_empty in Hz. }
  split; intros Hw; rewrite Hw; done.
Qed.

Lemma CreateOverlay_done_mount env cid cfg s m s' :
  CreateOverlay env cid cfg s = (Done m, s') ->
  ID m = overlay_id cid (now env) /\ ContainerID m = cid /\
  MergedDir m = join (join (BaseDir s) (ID m)) "merged" /\
  overlays s' = <[cid := m]> (overlays s) /\ dirs s' = {[ID m]} ∪ dirs s /\
  mounted s' = {[MergedDir m]} ∪ mounted s /\ BaseDir s' = BaseDir s /\
  overlays s !! cid = None.
Proof.
  intros Hc. apply CreateOverlay_done_spec in Hc
    as (Q1 & Q2 & Q3 & Q4 & Q5 & Q6 & -> & Q8 & Q9 & Q10 & Q11 & _). simpl. repeat split; auto.
Qed.

Lemma CleanupOverlay_ok_exact env cid s m s' :
  overlays s !! cid = Some m -> CleanupOverlay env cid s = (Ok tt, s') ->
  overlays s' = delete cid (overlays s) /\ dirs s' = dirs s ∖ {[ID m]} /\
  mounted s' = mounted s ∖ {[MergedDir m]} /\ BaseDir s' = BaseDir s /\
  (write_ok env = true -> remove_ok env = true -> synced s').
Proof.
  intros Hm. unfold CleanupOverlay. rewrite Hm.
  destruct (cleanupMount env s m) as [[[]|e] s1] eqn:Hc; [|congruence].
  intros Q. injection Q as <-.
  apply cleanupMount_ok_exact in Hc as (_ & _ & Q1 & _ & Q3 & Q4 & Q5).
  rewrite overlays_persistState, dirs_persistState, mounted_persistState, BaseDir_persistState.
  simpl. rewrite Q1, Q3, Q4, Q5. repeat split; try done. apply persistState_synced.
Qed.

Lemma CleanupOverlay_err_exact env cid s e s' :
  CleanupOverlay env cid s = (Err e, s') ->
  exists m, overlays s !! cid = Some m /\
  overlays s' = overlays s /\ state_file s' = state_file s /\ BaseDir s' = BaseDir s /\
  dirs s' = dirs s /\
  (e = ErrRemoveAll -> platform env = Linux /\ mounted s' = mounted s ∖ {[MergedDir m]}) /\
  (e <> ErrRemoveAll -> s' = s).
Proof.
  unfold CleanupOverlay. destruct (overlays s !! cid) as [m|] eqn:Hm; [|congruence].
  destruct (cleanupMount env s m) as [[[]|e'] s1] eqn:Hc; [congruence|].
  intros Q. injection Q as <- <-. exists m. split; [done|]. by apply cleanupMount_err_exact.
Qed.

Lemma reg_inv_ext s s' :
  overlays s' = overlays s -> dirs s' = dirs s -> BaseDir s' = BaseDir s ->
  reg_inv s -> reg_inv s'.
Proof. intros Q1 Q2 Q3 H c m. rewrite Q1, Q2, Q3. apply H. Qed.

Lemma reg_inv_ID_ne s c1 m1 c2 m2 :
  reg_inv s -> overlays s !! c1 = Some m1 -> overlays s !! c2 = Some m2 -> c1 <> c2 ->
  ID m1 <> ID m2 /\ MergedDir m1 <> MergedDir m2.
Proof.
  intros H H1 H2 Hne.
  destruct (H _ _ H1) as (_ & _ & Hm1 & U1). destruct (H _ _ H2) as (_ & _ & Hm2 & _).
  assert (Hid : ID m1 <> ID m2) by (intros E; apply Hne; symmetry; by apply (U1 c2 m2)).
  split; [done|]. rewrite Hm1, Hm2. intros E. by apply join_mid_inj in E.
Qed.

Lemma cleanup_each_all_ok env ms le s :
  (forall c m, (c, m) ∈ ms -> cleanup_would_succeed env s m) ->
  fst (cleanup_each env ms le s) = le.
Proof.
  revert le s. induction ms as [|[c m] ms IH]; intros le s Hall; simpl; [done|].
  destruct (cleanupMount env s m) as [r s1] eqn:Hc.
  assert (Hok : r = Ok tt).
  { pose proof (cleanupMount_succeeds env s m (Hall c m ltac:(left))) as E.
    rewrite Hc in E. done. }
  subst r. apply IH. intros c' m' Hin.
  apply cleanupMount_spec in Hc as (_ & _ & _ & Hsub & _).
  eapply cleanup_would_succeed_mono; [exact Hsub|]. apply (Hall c'). by right.
Qed.

Lemma cleanup_each_all_fail env ms le s le' s' :
  rmall_ok env = false -> ms <> [] -> cleanup_each env ms le s = (le', s') ->
  (exists e, le' = Some e) /\ dirs s' = dirs s.
Proof.
  intros Hr. revert le s. induction ms as [|[c m] ms IH]; intros le s Hne Hce; [done|].
  simpl in Hce. destruct (cleanupMount env s m) as [r s1] eqn:Hc.
  destruct r as [[]|e].
  { apply cleanupMount_ok_exact in Hc as (_ & Hr' & _). congruence. }
  apply cleanupMount_err_exact in Hc as (_ & _ & _ & Hd & _).
  destruct ms as [|x ms'].
  - simpl in Hce. injection Hce as <- <-. split; [by exists e|done].
  - destruct (IH _ _ ltac:(discriminate) Hce) as [Hle Hd']. split; [done|]. congruence.
Qed.

Lemma cleanup_each_nonlinux env ms le s :
  platform env = NonLinux -> snd (cleanup_each env ms le s) = s.
Proof.
  intros Hp. revert le. induction ms as [|[c m] ms IH]; intros le; simpl; [done|].
  unfold cleanupMount at 1. rewrite Hp. apply IH.
Qed.

End OverlayMoreFacts.

Module ProcMountsFacts.
Import Overlay MoreProps StringFacts.

Lemma has_space_String c s : has_space (String c s) = is_space c || has_space s.
Proof. reflexivity. Qed.

Lemma Fields_go_word w s acc :
  has_space w = false -> Fields_go (w +:+ s) acc = Fields_go s (acc +:+ w).
Proof.
  revert acc. induction w as [|c w IH]; intros acc Hw; sapp.
  - by rewrite string_app_nil_r.
  - rewrite has_space_String in Hw. apply orb_false_iff in Hw as [Hc Hw].
    simpl. rewrite Hc. rewrite IH by done. by rewrite string_app_assoc.
Qed.

Lemma Fields_go_space c s acc :
  is_space c = true -> acc <> "" -> Fields_go (String c s) acc = acc :: Fields_go s "".
Proof.
  intros Hc Ha. simpl. rewrite Hc. by rewrite (proj2 (String.eqb_neq _ _) Ha).
Qed.

Lemma Fields_go_fields s acc :
  has_space acc = false ->
  Forall (fun w => w <> "" /\ has_space w = false) (Fields_go s acc).
Proof.
  revert acc. induction s as [|c s IH]; intros acc Ha; simpl.
  - destruct (String.eqb acc "") eqn:E; [constructor|].
    apply String.eqb_neq in E. repeat constructor; done.
  - destruct (is_space c) eqn:Hc.
    + destruct (String.eqb acc "") eqn:E; [by apply IH|].
      apply String.eqb_neq in E. constructor; [done|]. by apply IH.
    + apply IH. unfold has_space. rewrite has_char_app. fold (has_space acc). rewrite Ha.
      unfold has_char. simpl. by rewrite Hc.
Qed.

Lemma split_lines_word w rest cur :
  has_char (fun c => Ascii.eqb c "010"%char) w = false ->
  split_lines (w +:+ rest) cur = split_lines rest (cur +:+ w).
Proof.
  revert cur. induction w as [|c w IH]; intros cur Hw; sapp.
  - by rewrite string_app_nil_r.
  - unfold has_char in Hw. simpl in Hw. apply orb_false_iff in Hw as [Hc Hw].
    simpl. rewrite Hc. rewrite IH by done. by rewrite string_app_assoc.
Qed.

Lemma newline_space w : has_space w = false -> has_char (fun c => Ascii.eqb c "010"%char) w = false.
Proof.
  unfold has_space, has_char. induction (String.list_ascii_of_string w) as [|c l IH]; [done|].
  simpl. intros H. apply orb_false_iff in H as [Hc Hl]. rewrite IH by done.
  destruct (Ascii.eqb c "010") eqn:E; [|done]. apply Ascii.eqb_eq in E. subst c. done.
Qed.

Lemma get_last_app x c :
  String.get (String.length (x +:+ String c "") - 1) (x +:+ String c "") = Some c.
Proof.
  induction x as [|d x IH]; [done|]. sapp. simpl String.length.
  destruct (String.length (x +:+ String c "")) eqn:E.
  { exfalso. rewrite length_las, las_app in E. rewrite length_app in E. simpl in E. lia. }
  simpl in IH |- *. rewrite !Nat.sub_0_r in *. exact IH.
Qed.

Lemma mount_line_split e :
  mount_line e = (me_dev e +:+ " " +:+ me_dir e +:+ " " +:+ me_type e +:+ " " +:+ me_opts e +:+ " 0 ")
                 +:+ String "0" "".
Proof. unfold mount_line. rewrite !string_app_assoc. reflexivity. Qed.

Lemma drop_cr_mount_line e : drop_cr (mount_line e) = mount_line e.
Proof. unfold drop_cr. rewrite mount_line_split, get_last_app. reflexivity. Qed.

Lemma Fields_mount_line e :
  plain_field (me_dev e) -> plain_field (me_dir e) -> plain_field (me_type e) ->
  plain_field (me_opts e) ->
  Fields (mount_line e) = [me_dev e; me_dir e; me_type e; me_opts e; "0"; "0"].
Proof.
  intros (D1 & D2 & _) (R1 & R2 & _) (T1 & T2 & _) (O1 & O2 & _).
  unfold Fields, mount_line.
  rewrite Fields_go_word by done. sapp. rewrite Fields_go_space by done.
  rewrite Fields_go_word by done. sapp. rewrite Fields_go_space by done.
  rewrite Fields_go_word by done. sapp. rewrite Fields_go_space by done.
  rewrite Fields_go_word by done. sapp. rewrite Fields_go_space by done.
  reflexivity.
Qed.

Lemma mount_line_no_newline e :
  plain_field (me_dev e) -> plain_field (me_dir e) -> plain_field (me_type e) ->
  plain_field (me_opts e) ->
  has_char (fun c => Ascii.eqb c "010"%char) (mount_line e) = false.
Proof.
  intros (_ & D & _) (_ & R & _) (_ & T & _) (_ & O & _). unfold mount_line.
  rewrite !has_char_app, (newline_space _ D), (newline_space _ R), (newline_space _ T), (newline_space _ O). reflexivity.
Qed.

End ProcMountsFacts.

(** * Further properties of the code *)

Module SnapshotExtras.
Import Snapshot SnapshotProps SnapshotFacts MoreProps StringFacts SnapshotMoreFacts EnsureFacts HivesimFacts.

(** X2: [mapClientName] is idempotent: mapping an already mapped name
    changes nothing. *)
Theorem mapClientName_idempotent s : mapClientName (mapClientName s) = mapClientName s.
Proof.
  remember (mapClientName s) as r eqn:Hr. unfold mapClientName in Hr.
  destruct (0 <? index_underscore s) eqn:Hi.
  - set (bn := String.substring 0 (Z.to_nat (index_underscore s)) s) in Hr.
    assert (Hbn : index_underscore bn = -1).
    { apply index_underscore_prefix. right. apply Z.ltb_lt in Hi. rewrite Z2Nat.id; lia. }
    destruct (String.eqb (ToLower bn) "go-ethereum") eqn:E1; [by subst|].
    destruct (String.eqb (ToLower bn) "nethermind") eqn:E2; [by subst|].
    destruct (String.eqb (ToLower bn) "besu") eqn:E3; [by subst|].
    destruct (String.eqb (ToLower bn) "reth") eqn:E4; [by subst|].
    destruct (String.eqb (ToLower bn) "erigon") eqn:E5; [by subst|].
    subst r. unfold mapClientName. rewrite Hbn.
    assert (H0 : (0 <? -1) = false) by reflexivity. rewrite H0.
    by rewrite E1, E2, E3, E4, E5.
  - destruct (String.eqb (ToLower s) "go-ethereum") eqn:E1; [by subst|].
    destruct (String.eqb (ToLower s) "nethermind") eqn:E2; [by subst|].
    destruct (String.eqb (ToLower s) "besu") eqn:E3; [by subst|].
    destruct (String.eqb (ToLower s) "reth") eqn:E4; [by subst|].
    destruct (String.eqb (ToLower s) "erigon") eqn:E5; [by subst|].
    subst r. unfold mapClientName. rewrite Hi.
    by rewrite E1, E2, E3, E4, E5.
Qed.

(** X1: [EnsureSnapshot] treats a hive client name with a [_tag] suffix
    (when the base name has no underscore and is not empty) exactly like
    the plain name, and the lower-case spelling of any client name exactly
    like the name itself: same result, same cache, same requests. *)
Theorem EnsureSnapshot_client_alias f n c t blk base cache env st :
  let cfg (c' : string) :=
    {| Network := n; Client := c'; BlockNumber := blk; BaseURL := base; CacheDir := cache |} in
  (c <> "" -> index_underscore c = -1 ->
   EnsureSnapshot f (cfg (c +:+ "_" +:+ t)) env st = EnsureSnapshot f (cfg c) env st) /\
  EnsureSnapshot f (cfg (ToLower c)) env st = EnsureSnapshot f (cfg c) env st.
Proof.
  intros cfg. unfold cfg. split; unfold EnsureSnapshot, norm_client; cbn [Client].
  - intros Hc Hi. by rewrite mapClientName_tag.
  - by rewrite norm_client_ToLower.
Qed.

(** X3: a block number resolved by [resolveLatestBlock] is never empty,
    neither starts nor ends with white space, has at most 64 bytes, and
    costs exactly one request, to [{base}/{network}/{client}/latest]. *)
Theorem resolveLatestBlock_ok env base n c b log :
  resolveLatestBlock env base n c = (Ok b, log) ->
  trimmed b = true /\ (String.length b <= 64)%nat /\
  log = [{| req_url := join (join (join base n) c) "latest"; req_range := None |}].
Proof.
  unfold resolveLatestBlock. destruct (latest env) as [|st body]; [congruence|].
  destruct (negb (st =? 200)); [congruence|].
  destruct (String.eqb (TrimSpace (String.substring 0 64 body)) "") eqn:E; [congruence|].
  intros H. injection H as <- <-. split; [|split; [|done]].
  - apply TrimSpace_trimmed. by apply String.eqb_neq.
  - etransitivity; [apply length_TrimSpace_le|apply length_substring_le].
Qed.

(** X4: when the latest endpoint answers 200 with a block number [b]
    (ASCII, not empty, no surrounding white space) padded with white space
    on both sides, and the padding before [b] and [b] itself fit in the
    first 64 bytes, [resolveLatestBlock] returns exactly [b]. *)
Theorem resolveLatestBlock_roundtrip env base n c ws1 b ws2 :
  latest env = LResp 200 (ws1 +:+ b +:+ ws2) ->
  forallb is_space (String.list_ascii_of_string ws1) = true ->
  forallb is_space (String.list_ascii_of_string ws2) = true ->
  trimmed b = true -> ascii_only b = true ->
  (String.length ws1 + String.length b <= 64)%nat ->
  fst (resolveLatestBlock env base n c) = Ok b.
Proof.
  intros Hl H1 H2 Hb _ Hn. unfold resolveLatestBlock. rewrite Hl. simpl negb. cbv iota.
  rewrite TrimSpace_roundtrip by done.
  destruct b as [|x b]; [done|]. done.
Qed.

(** X5: a successful [downloadFile] consumed some 416 answers and then
    one 200 or 206 answer whose copy succeeded, sending one request per
    answer; after a 200 the archive is the body, after a 206 it is the
    earlier partial file plus the body, which is possible only if no 416
    came first or the removal of the partial file failed. *)
Theorem downloadFile_ok_shape env url arch rs a log rest :
  downloadFile env url arch rs = (Ok tt, a, log, rest) ->
  exists pre st cl body,
    rs = pre ++ RResp st cl body true :: rest /\
    Forall (fun x => is416 x = true) pre /\ length log = S (length pre) /\
    ((st = 200 /\ create_ok env = true /\ a = Some body) \/
     (st = 206 /\ exists n, arch = Some n /\ a = Some (n + body) /\
                            (pre = [] \/ rm_archive_ok env = false))).
Proof.
  revert arch a log rest. induction rs as [|x rs IH]; intros arch a log rest H; simpl in H.
  { congruence. }
  destruct x as [|st cl body ok]; [congruence|].
  destruct (st =? 200) eqn:E200.
  { destruct (create_ok env) eqn:Ec; [|congruence]. destruct ok; [|congruence].
    injection H as <- <- <-. apply Z.eqb_eq in E200.
    exists [], st, cl, body. repeat split; auto. }
  destruct (st =? 206) eqn:E206.
  { destruct arch as [n|]; [|congruence]. destruct ok; [|congruence].
    injection H as <- <- <-. apply Z.eqb_eq in E206.
    exists [], st, cl, body. repeat split; auto. right. split; [done|]. exists n. auto. }
  destruct (st =? 416) eqn:E416; [|congruence].
  destruct (downloadFile env url _ rs) as [[[r a'] l'] rest'] eqn:Ed.
  injection H as -> -> <- ->.
  destruct (IH _ _ _ _ Ed) as (pre & st' & cl' & body' & Hrs & Hpre & Hlen & Hcase).
  exists (RResp st cl body ok :: pre), st', cl', body'. split; [by rewrite Hrs|].
  split; [constructor; [done|done]|]. split; [simpl; lia|].
  destruct Hcase as [Hc|(Hst & n & Ha & Ha' & _)]; [by left|right].
  split; [done|]. exists n.
  destruct (rm_archive_ok env); [done|]. auto.
Qed.

(** X6: [EnsureSnapshot] never changes an entry that has [.complete]; it
    changes nothing when the block cannot be resolved, and otherwise
    changes at most the entry of the block its first step resolved. *)
Theorem EnsureSnapshot_frame f cfg env st r st' log :
  EnsureSnapshot f cfg env st = (r, st', log) ->
  (forall k e, st !! k = Some e -> e_complete e = true -> st' !! k = Some e) /\
  (forall err, fst (resolve_step f cfg env) = Err err -> st' = st) /\
  (forall block, fst (resolve_step f cfg env) = Ok block ->
     forall k, k <> entry_dir f cfg block -> st' !! k = st !! k).
Proof.
  rewrite EnsureSnapshot_eq.
  destruct (resolve_step f cfg env) as [rb log1]. cbn [fst].
  destruct rb as [block|err].
  2:{ intros H. injection H as _ <- _. split; [auto|]. split; [done|]. intros ? H'; discriminate H'. }
  cbv zeta. destruct (e_complete (entry_at st (entry_dir f cfg block))) eqn:Ec.
  { intros H. injection H as _ <- _. split; [auto|].
    split; [intros ? H'; discriminate H'|]. done. }
  destruct (downloadSnapshot _ _ _ _ _ _) as [[r2 e'] log2].
  intros H. injection H as _ <- _. split; [|split; [intros ? H'; discriminate H'|]].
  - intros k e Hk He. destruct (decide (k = entry_dir f cfg block)) as [->|Hne].
    + unfold entry_at in Ec. rewrite Hk in Ec. simpl in Ec. congruence.
    + by rewrite lookup_insert_ne by congruence.
  - intros b' Hb k Hk. injection Hb as <-. by rewrite lookup_insert_ne by congruence.
Qed.

(** X7: for a concrete block and the fetcher's own cache directory,
    [GetCachedSnapshotPath] returns a path exactly when [EnsureSnapshot]
    would return it at once, with no request and no change (when it
    returns a path, [EnsureSnapshot] returns that path with no request and
    no change; when [EnsureSnapshot] returns a path with no request, that
    path is the non-empty answer of [GetCachedSnapshotPath] and the cache
    is unchanged); and after a successful [EnsureSnapshot] whose marker
    write succeeded, [GetCachedSnapshotPath] returns the same path. *)
Theorem GetCachedSnapshotPath_agrees f cfg env st :
  CacheDir cfg = "" -> BlockNumber cfg <> "" -> BlockNumber cfg <> "latest" ->
  (GetCachedSnapshotPath f (Network cfg) (Client cfg) (BlockNumber cfg) st <> "" ->
   EnsureSnapshot f cfg env st =
     (Ok (GetCachedSnapshotPath f (Network cfg) (Client cfg) (BlockNumber cfg) st), st, [])) /\
  (forall p st' log, EnsureSnapshot f cfg env st = (Ok p, st', log) -> marker_ok env = true ->
   GetCachedSnapshotPath f (Network cfg) (Client cfg) (BlockNumber cfg) st' = p) /\
  (forall p st', EnsureSnapshot f cfg env st = (Ok p, st', []) ->
   GetCachedSnapshotPath f (Network cfg) (Client cfg) (BlockNumber cfg) st = p /\
   p <> "" /\ st' = st).
Proof.
  intros Hc Hb1 Hb2.
  assert (Hnb : norm_block cfg = BlockNumber cfg).
  { unfold norm_block. by rewrite (proj2 (String.eqb_neq _ _) Hb1). }
  assert (Hcache : eff_cache f cfg = cacheDir f).
  { unfold eff_cache. by rewrite Hc. }
  assert (Hl : String.eqb (BlockNumber cfg) "latest" = false) by (by apply String.eqb_neq).
  assert (He : String.eqb (BlockNumber cfg) "" = false) by (by apply String.eqb_neq).
  unfold EnsureSnapshot, GetCachedSnapshotPath. rewrite Hnb, Hl, He, Hcache.
  fold (norm_network cfg) (norm_client cfg).
  set (dir := snapshot_dir (cacheDir f) (norm_network cfg) (norm_client cfg) (BlockNumber cfg)).
  split; [|split].
  - destruct (e_complete (entry_at st dir)); [done|]. done.
  - intros p st' log. destruct (e_complete (entry_at st dir)) eqn:Ec.
    + intros H _. injection H as <- <- _. by rewrite Ec.
    + destruct (downloadSnapshot _ _ _ _ _ _) as [[r2 e'] log2] eqn:Ed.
      destruct r2 as [[]|err]; [|congruence].
      intros H Hm. injection H as <- <- _.
      unfold entry_at. rewrite lookup_insert_eq. simpl.
      rewrite (downloadSnapshot_ok_complete _ _ _ _ _ _ _ _ Ed), Hm, orb_true_r. done.
  - intros p st'. destruct (e_complete (entry_at st dir)) eqn:Ec.
    + intros H. injection H as <- <-. split; [done|]. split; [apply join_neq_empty|done].
    + destruct (downloadSnapshot _ _ _ _ _ _) as [[r2 e'] log2] eqn:Ed.
      destruct r2 as [[]|err]; [|congruence].
      intros H. injection H as _ _ Hlog. simpl in Hlog.
      apply downloadSnapshot_ok_log in Ed. contradiction.
Qed.

(** X8: [GetCachedSnapshotPath] with an empty block looks at the entry
    literally named [latest], which [EnsureSnapshot] with an empty block
    never touches when the server resolves "latest" to a block number that
    is a plain path component (not empty, no [/], not [.] or [..]) other
    than [latest]: the cached path it reports stays what it was.  For such
    a block [filepath.Join] cleans nothing away, so the entry directories
    of two different blocks differ, as [join] has them. *)
Theorem GetCachedSnapshotPath_latest_unresolved f cfg env st r st' log :
  CacheDir cfg = "" -> BlockNumber cfg = "" ->
  (forall b, fst (resolveLatestBlock env (eff_base f cfg) (norm_network cfg) (norm_client cfg)) = Ok b ->
   plain_id b = true /\ b <> "latest") ->
  EnsureSnapshot f cfg env st = (r, st', log) ->
  GetCachedSnapshotPath f (Network cfg) (Client cfg) "" st' =
  GetCachedSnapshotPath f (Network cfg) (Client cfg) "" st.
Proof.
  intros Hc Hb Hres.
  assert (Hcache : eff_cache f cfg = cacheDir f) by (unfold eff_cache; by rewrite Hc).
  assert (Hnb : norm_block cfg = "latest") by (unfold norm_block; by rewrite Hb).
  unfold EnsureSnapshot. rewrite Hnb, Hcache. simpl (String.eqb "latest" "latest"). cbv iota.
  destruct (resolveLatestBlock _ _ _ _) as [rb log1]. simpl in Hres.
  destruct rb as [block|err]; [|intros H; by injection H as _ <- _].
  destruct (Hres block eq_refl) as [_ Hne].
  destruct (e_complete _); [intros H; by injection H as _ <- _|].
  destruct (downloadSnapshot _ _ _ _ _ _) as [[r2 e'] log2].
  intros H. injection H as _ <- _.
  unfold GetCachedSnapshotPath. simpl (String.eqb "" ""). cbv iota.
  fold (norm_network cfg) (norm_client cfg).
  unfold entry_at. rewrite lookup_insert_ne; [done|].
  intros Heq. apply snapshot_dir_last_inj in Heq. congruence.
Qed.


(** X9: in the [hivesim] manager, after a successful [EnsureSnapshotAt]
    whose [metadata.json] save succeeded, any later call returns the same
    path with no request and no change. *)
Theorem Hivesim_cached_after_save m env env2 n c b st p st' log :
  Hivesim.EnsureSnapshotAt m env n c b st = (Ok p, st', log) ->
  Hivesim.save_ok env = true ->
  Hivesim.EnsureSnapshotAt m env2 n c b st' = (Ok p, st', []).
Proof.
  unfold Hivesim.EnsureSnapshotAt.
  set (dir := snapshot_dir (Hivesim.CacheDir (Hivesim.config m)) (ToLower n) (ToLower c) b).
  destruct (Hivesim.hentry_at st dir) as [e meta] eqn:Eh.
  destruct (e_data e && meta) eqn:Ec.
  { intros Q _. injection Q as <- <- _. rewrite Eh, Ec. done. }
  destruct (Hivesim.downloadSnapshot _ _ _ _ _ _) as [[r1 e'] l] eqn:Ed.
  destruct r1 as [[]|err]; [|congruence].
  intros Q Hs. injection Q as <- <- _.
  pose proof (hivesim_downloadSnapshot_ok_data _ _ _ _ _ _ _ _ Ed) as Hd.
  rewrite hentry_at_insert_eq, Hs, orb_true_r, Hd. done.
Qed.


(** X11: [FetchSnapshotWithConfig] rejects an empty network or client
    with no I/O and no change; a path it returns is
    [{cache}/{network}/{client}/{block}/data], with the network and client
    lower-cased but the client name not mapped, the block defaulting to the
    literal [latest] and the cache to [/var/lib/hive/snapshots]; and every
    request it sends is an unranged GET of that entry's archive or
    metadata URL. *)
Theorem FetchSnapshotWithConfig_spec c env st r st' log :
  Hivesim.FetchSnapshotWithConfig c env st = (r, st', log) ->
  (Hivesim.Network c = "" -> r = Err Hivesim.FNetworkRequired /\ st' = st /\ log = []) /\
  (Hivesim.Network c <> "" -> Hivesim.Client c = "" ->
   r = Err Hivesim.FClientRequired /\ st' = st /\ log = []) /\
  let blk := if String.eqb (Hivesim.BlockNumber c) "" then "latest" else Hivesim.BlockNumber c in
  let base := if String.eqb (Hivesim.BaseURL c) "" then Hivesim.DefaultSnapshotBaseURL
              else Hivesim.BaseURL c in
  let cache := if String.eqb (Hivesim.CacheDir c) "" then "/var/lib/hive/snapshots"
               else Hivesim.CacheDir c in
  let net := ToLower (Hivesim.Network c) in
  let cl := ToLower (Hivesim.Client c) in
  (forall p, r = Ok p -> p = join (snapshot_dir cache net cl blk) "data") /\
  Forall (fun q => req_range q = None /\
     (req_url q = snapshot_url base net cl blk \/ req_url q = Hivesim.metadata_url base net cl blk)) log.
Proof.
  unfold Hivesim.FetchSnapshotWithConfig.
  destruct (String.eqb (Hivesim.Network c) "") eqn:En.
  { intros Q. injection Q as <- <- <-. apply String.eqb_eq in En.
    split; [done|]. split; [done|]. split; [intros p Q; discriminate Q|constructor]. }
  apply String.eqb_neq in En.
  destruct (String.eqb (Hivesim.Client c) "") eqn:Ec.
  { intros Q. injection Q as <- <- <-. apply String.eqb_eq in Ec.
    split; [done|]. split; [done|]. split; [intros p Q; discriminate Q|constructor]. }
  apply String.eqb_neq in Ec.
  destruct (Hivesim.EnsureSnapshotAt _ _ _ _ _ _) as [[r0 st0] l0] eqn:Ee.
  intros Q. injection Q as <- <- <-.
  apply EnsureSnapshotAt_shape in Ee as [Hp Hl]. cbn [Hivesim.config Hivesim.NewSnapshotManager Hivesim.CacheDir Hivesim.BaseURL] in Hp, Hl.
  split; [done|]. split; [done|]. split; [|exact Hl].
  intros p Q. destruct r0; [|discriminate Q]. injection Q as <-. by apply Hp.
Qed.

End SnapshotExtras.

Module ProcMountsExtras.
Import Overlay MoreProps StringFacts ProcMountsFacts.

(** X12: on a mount table whose fields are plain (not empty, ASCII, no
    white space) and whose lines fit the scanner's buffer, [isMounted]
    reports a path mounted exactly when it is the mount point of one of
    the lines. *)
Theorem isMounted_proc_render es path :
  Forall (fun e => plain_field (me_dev e) /\ plain_field (me_dir e) /\
                   plain_field (me_type e) /\ plain_field (me_opts e) /\
                   (String.length (mount_line e) < MaxScanTokenSize)%nat) es ->
  isMounted_proc (Some (render_mounts es)) path =
  existsb (fun e => String.eqb (me_dir e) path) es.
Proof.
  intros Hall. unfold isMounted_proc, scan_lines.
  induction es as [|e es IH]; [reflexivity|].
  inversion Hall as [|? ? (P1 & P2 & P3 & P4 & Pl) Hrest]; subst.
  simpl render_mounts. rewrite split_lines_word by (by apply mount_line_no_newline). sapp.
  simpl split_lines. simpl. rewrite (proj2 (Nat.ltb_lt _ _) Pl).
  simpl. rewrite drop_cr_mount_line, Fields_mount_line by done. simpl.
  f_equal. by apply IH.
Qed.

(** X13: [isMounted] never reports the empty path or a path containing
    white space as mounted, whatever [/proc/mounts] holds. *)
Theorem isMounted_proc_never_matches pm path :
  path = "" \/ has_space path = true -> isMounted_proc pm path = false.
Proof.
  intros Hp. destruct pm as [txt|]; [|done]. unfold isMounted_proc.
  apply not_true_iff_false. intros H. apply existsb_exists in H as (line & _ & Hl).
  pose proof (Fields_go_fields line "" eq_refl) as HF. unfold Fields in Hl.
  destruct (Fields_go line "") as [|f0 [|f1 rest]]; [done|done|].
  inversion HF as [|? ? _ HF']; subst. inversion HF' as [|? ? [Hne Hsp] _]; subst.
  apply String.eqb_eq in Hl. subst f1. destruct Hp as [->|Hp]; congruence.
Qed.

End ProcMountsExtras.

Module OverlayExtras.
Import Overlay OverlayProps OverlayFacts MoreProps StringFacts OverlayMoreFacts.

(** X14: [CreateOverlay] returns a mount exactly when the container is
    not registered, the snapshot path is a directory, the container ID has
    at least 12 bytes, the directories are created, the platform is Linux
    and the mount succeeds. *)
Theorem CreateOverlay_done_iff env cid cfg s :
  (exists m s', CreateOverlay env cid cfg s = (Done m, s')) <->
  overlays s !! cid = None /\ stat env (SnapshotPath cfg) = StDir /\
  (12 <= String.length cid)%nat /\ mkdir_ok env = true /\
  platform env = Linux /\ mount_res env = MountOk.
Proof.
  split.
  - intros (m & s' & Hc). apply CreateOverlay_done_spec in Hc. naive_solver.
  - intros (Q1 & Q2 & Q3 & Q4 & Q5 & Q6). unfold CreateOverlay.
    rewrite Q1, Q2, Q4. apply Nat.ltb_ge in Q3. rewrite Q3. simpl negb. cbv iota.
    unfold mountOverlay. rewrite Q5, Q6. eauto.
Qed.

(** X15: the mount [CreateOverlay] returns has the ID
    [{containerID[:12]}_{now}], its directories under [{BaseDir}/{ID}],
    the snapshot as lower directory, and is what [GetOverlay] then finds;
    the registry gains exactly this entry, the overlay tree and the merged
    mount point are added, and the base directory is unchanged. *)
Theorem CreateOverlay_done_effects env cid cfg s m s' :
  CreateOverlay env cid cfg s = (Done m, s') ->
  GetOverlay cid s' = Some m /\ ID m = overlay_id cid (now env) /\ ContainerID m = cid /\
  LowerDir m = SnapshotPath cfg /\ ContainerPath m = ContainerMountPath cfg /\
  UpperDir m = join (join (BaseDir s) (ID m)) "upper" /\
  WorkDir m = join (join (BaseDir s) (ID m)) "work" /\
  MergedDir m = join (join (BaseDir s) (ID m)) "merged" /\
  overlays s' = <[cid := m]> (overlays s) /\ dirs s' = {[ID m]} ∪ dirs s /\
  mounted s' = {[MergedDir m]} ∪ mounted s /\ BaseDir s' = BaseDir s.
Proof.
  intros Hc. apply CreateOverlay_done_spec in Hc
    as (_ & _ & _ & _ & _ & _ & -> & Q8 & Q9 & Q10 & Q11 & _).
  unfold GetOverlay. rewrite Q8, lookup_insert_eq. simpl. repeat split; done.
Qed.

(** X16: [CreateOverlay] and [CleanupOverlay] for one container never
    change what [GetOverlay] returns for another container. *)
Theorem GetOverlay_frame env c c' cfg s :
  c' <> c ->
  GetOverlay c' (snd (CreateOverlay env c cfg s)) = GetOverlay c' s /\
  GetOverlay c' (snd (CleanupOverlay env c s)) = GetOverlay c' s.
Proof.
  intros Hne. unfold GetOverlay. split.
  - destruct (CreateOverlay env c cfg s) as [[m|e|] s'] eqn:Hc; simpl.
    + apply CreateOverlay_done_mount in Hc as (_ & _ & _ & Q & _).
      rewrite Q. by apply lookup_insert_ne.
    + apply CreateOverlay_fail_frame in Hc as (Q & _). by rewrite Q.
    + unfold CreateOverlay in Hc. repeat case_match; simplify_eq; done.
  - destruct (CleanupOverlay env c s) as [[[]|e] s'] eqn:Hc; simpl.
    + destruct (overlays s !! c) as [m|] eqn:Hm.
      * destruct (CleanupOverlay_ok_exact _ _ _ _ _ Hm Hc) as (Q & _).
        rewrite Q. by apply lookup_delete_ne.
      * unfold CleanupOverlay in Hc. rewrite Hm in Hc. by injection Hc as <-.
    + apply CleanupOverlay_err_exact in Hc as (m & _ & Q & _). by rewrite Q.
Qed.

(** X17: a successful [CreateOverlay] whose new overlay ID names no
    existing tree and whose merged directory was not mounted before,
    followed by a [CleanupOverlay] of the same container on Linux, with
    [RemoveAll] and one unmount attempt succeeding, succeeds and restores
    the registry, the overlay trees and the mount table (and [state.json],
    when it mirrored the registry and the write and removal succeed). *)
Theorem Create_Cleanup_roundtrip env env' cid cfg s m s1 :
  CreateOverlay env cid cfg s = (Done m, s1) ->
  ID m ∉ dirs s -> MergedDir m ∉ mounted s ->
  platform env' = Linux -> rmall_ok env' = true ->
  (umount_ok env' || umount_lazy_ok env' || umount_force_ok env') = true ->
  exists s2, CleanupOverlay env' cid s1 = (Ok tt, s2) /\
    overlays s2 = overlays s /\ dirs s2 = dirs s /\ mounted s2 = mounted s /\
    BaseDir s2 = BaseDir s /\
    (synced s -> write_ok env' = true -> remove_ok env' = true -> state_file s2 = state_file s).
Proof.
  intros Hc Hid Hmd Hp Hr Hu.
  apply CreateOverlay_done_mount in Hc as (_ & _ & _ & Q1 & Q2 & Q3 & Q4 & Hnone).
  assert (Hreg : overlays s1 !! cid = Some m) by (rewrite Q1; apply lookup_insert_eq).
  destruct (CleanupOverlay env' cid s1) as [r s2] eqn:Hcl.
  assert (Hok : r = Ok tt).
  { unfold CleanupOverlay in Hcl. rewrite Hreg in Hcl.
    pose proof (cleanupMount_succeeds env' s1 m) as E.
    destruct (cleanupMount env' s1 m) as [[[]|e] s3]; [by injection Hcl as <-|].
    exfalso. simpl in E. assert (Err e = Ok tt) by (apply E; repeat split; auto). done. }
  subst r. exists s2. split; [done|].
  destruct (CleanupOverlay_ok_exact _ _ _ _ _ Hreg Hcl) as (R1 & R2 & R3 & R4 & R5).
  assert (E1 : overlays s2 = overlays s) by (rewrite R1, Q1; by apply delete_insert_id).
  split; [done|].
  split; [rewrite R2, Q2; apply leibniz_equiv; set_solver|].
  split; [rewrite R3, Q3; apply leibniz_equiv; set_solver|].
  split; [congruence|].
  intros Hs Hw Hrm. specialize (R5 Hw Hrm). unfold synced in Hs, R5. rewrite E1 in R5.
  destruct (size (overlays s) =? 0)%nat; congruence.
Qed.

(** X18: the registry invariant (each registered mount is keyed by its
    container, its tree exists, its merged directory lies in that tree and
    no two mounts share an ID) is kept by a successful [CreateOverlay]
    whose overlay ID is fresh and by every [CleanupOverlay]; the mount
    invariant (every registered mount is mounted) is kept by both when
    they succeed. *)
Theorem registry_invariant_preserved env cid cfg s :
  reg_inv s ->
  (forall m s', CreateOverlay env cid cfg s = (Done m, s') -> ID m ∉ dirs s ->
     reg_inv s' /\ (mounted_inv s -> mounted_inv s')) /\
  (forall r s', CleanupOverlay env cid s = (r, s') ->
     reg_inv s' /\ (r = Ok tt -> mounted_inv s -> mounted_inv s')).
Proof.
  intros Hinv. split.
  - intros m s' Hc Hfresh.
    apply CreateOverlay_done_mount in Hc as (_ & Hcid & Hmd & Q1 & Q2 & Q3 & Q4 & Hnone).
    split.
    + intros c0 m0 H0. rewrite Q1 in H0. rewrite Q2, Q4.
      destruct (decide (c0 = cid)) as [->|Hne].
      * rewrite lookup_insert_eq in H0. injection H0 as <-.
        split; [done|]. split; [set_solver|]. split; [done|].
        intros c' m' H' Hid. rewrite Q1 in H'.
        destruct (decide (c' = cid)) as [->|Hne']; [done|].
        rewrite lookup_insert_ne in H' by congruence.
        destruct (Hinv _ _ H') as (_ & Hin & _). exfalso. apply Hfresh. by rewrite <- Hid.
      * rewrite lookup_insert_ne in H0 by congruence.
        destruct (Hinv _ _ H0) as (Hc0 & Hin0 & Hm0 & U0).
        split; [done|]. split; [set_solver|]. split; [done|].
        intros c' m' H' Hid. rewrite Q1 in H'.
        destruct (decide (c' = cid)) as [->|Hne'].
        -- rewrite lookup_insert_eq in H'. injection H' as <-.
           exfalso. apply Hfresh. by rewrite Hid.
        -- rewrite lookup_insert_ne in H' by congruence. by apply (U0 c' m').
    + intros Hmi c0 m0 H0. rewrite Q3. rewrite Q1 in H0.
      destruct (decide (c0 = cid)) as [->|Hne].
      * rewrite lookup_insert_eq in H0. injection H0 as <-. set_solver.
      * rewrite lookup_insert_ne in H0 by congruence. apply Hmi in H0. set_solver.
  - intros r s' Hcl. destruct r as [[]|e].
    + destruct (overlays s !! cid) as [m|] eqn:Hm.
      2:{ unfold CleanupOverlay in Hcl. rewrite Hm in Hcl. injection Hcl as <-. done. }
      destruct (CleanupOverlay_ok_exact _ _ _ _ _ Hm Hcl) as (R1 & R2 & R3 & R4 & _).
      split.
      * intros c0 m0 H0. rewrite R1 in H0. apply lookup_delete_Some in H0 as [Hne H0].
        destruct (reg_inv_ID_ne s c0 m0 cid m Hinv H0 Hm (not_eq_sym Hne)) as [Hid _].
        destruct (Hinv _ _ H0) as (Hc0 & Hin0 & Hm0 & U0).
        rewrite R2, R4. split; [done|]. split; [set_solver|]. split; [done|].
        intros c' m' H' Hid'. rewrite R1 in H'. apply lookup_delete_Some in H' as [_ H'].
        by apply (U0 c' m').
      * intros _ Hmi c0 m0 H0. rewrite R1 in H0. apply lookup_delete_Some in H0 as [Hne H0].
        destruct (reg_inv_ID_ne s c0 m0 cid m Hinv H0 Hm (not_eq_sym Hne)) as [_ Hmd].
        rewrite R3. apply Hmi in H0. set_solver.
    + apply CleanupOverlay_err_exact in Hcl as (m & _ & Q1 & _ & Q3 & Q4 & _).
      split; [by apply (reg_inv_ext s)|done].
Qed.

(** X19: when [CleanupOverlay] fails on [RemoveAll] after unmounting,
    the container stays registered although its merged directory is no
    longer mounted, its overlay directory is still present (possibly
    partly emptied by the failed [RemoveAll]), [state.json] is unchanged,
    and a later [CleanupOverlay] on Linux succeeds as soon as [RemoveAll]
    does, whatever the unmount calls would return. *)
Theorem CleanupOverlay_removeall_failure env env' cid s m s' :
  overlays s !! cid = Some m -> CleanupOverlay env cid s = (Err ErrRemoveAll, s') ->
  GetOverlay cid s' = Some m /\ (MergedDir m ∉ mounted s') /\ (ID m ∈ dirs s -> ID m ∈ dirs s') /\
  state_file s' = state_file s /\
  (platform env' = Linux -> rmall_ok env' = true -> fst (CleanupOverlay env' cid s') = Ok tt).
Proof.
  intros Hm Hcl. apply CleanupOverlay_err_exact in Hcl as (m' & Hm' & Q1 & Q2 & _ & Q4 & Q5 & _).
  rewrite Hm in Hm'. injection Hm' as <-. destruct (Q5 eq_refl) as [_ Hmt].
  assert (Hnot : MergedDir m ∉ mounted s') by (rewrite Hmt; set_solver).
  unfold GetOverlay. rewrite Q1. split; [done|]. split; [done|].
  split; [by rewrite Q4|]. split; [done|].
  intros Hp Hr. unfold CleanupOverlay. rewrite Q1, Hm.
  pose proof (cleanupMount_succeeds env' s' m) as E.
  destruct (cleanupMount env' s' m) as [[[]|e] s3]; [done|].
  simpl in E. assert (Err e = Ok tt) by (apply E; repeat split; auto). done.
Qed.

(** X20: two containers whose IDs share their first 12 bytes, created
    at the same clock reading, get the same overlay ID and merged
    directory; both are registered, and cleaning up the second removes the
    tree the first is still registered with. *)
Theorem overlay_id_collision env c1 c2 cfg1 cfg2 s m1 s1 :
  CreateOverlay env c1 cfg1 s = (Done m1, s1) ->
  c2 <> c1 -> overlays s !! c2 = None ->
  String.substring 0 12 c2 = String.substring 0 12 c1 -> (12 <= String.length c2)%nat ->
  stat env (SnapshotPath cfg2) = StDir ->
  exists m2 s2, CreateOverlay env c2 cfg2 s1 = (Done m2, s2) /\
    ID m2 = ID m1 /\ MergedDir m2 = MergedDir m1 /\
    GetOverlay c1 s2 = Some m1 /\ GetOverlay c2 s2 = Some m2 /\
    (forall env' s3, CleanupOverlay env' c2 s2 = (Ok tt, s3) ->
       (ID m1 ∉ dirs s3) /\ GetOverlay c1 s3 = Some m1).
Proof.
  intros Hc1 Hne Hn2 Hpre Hl2 Hst2.
  pose proof Hc1 as Hs1. apply CreateOverlay_done_spec in Hs1
    as (_ & _ & _ & Hmk & Hp & Hmr & _).
  apply CreateOverlay_done_mount in Hc1 as (Hid1 & _ & Hmd1 & Q1 & Q2 & Q3 & Q4 & _).
  assert (Hn2' : overlays s1 !! c2 = None) by (rewrite Q1, lookup_insert_ne; congruence).
  destruct (proj2 (CreateOverlay_done_iff env c2 cfg2 s1) (conj Hn2' (conj Hst2 (conj Hl2 (conj Hmk (conj Hp Hmr))))))
    as (m2 & s2 & Hc2).
  pose proof Hc2 as Hc2'.
  apply CreateOverlay_done_mount in Hc2' as (Hid2 & _ & Hmd2 & R1 & R2 & R3 & R4 & _).
  assert (Hid : ID m2 = ID m1) by (rewrite Hid1, Hid2; unfold overlay_id; by rewrite Hpre).
  exists m2, s2. split; [done|]. split; [done|].
  split; [rewrite Hmd1, Hmd2, Hid, Q4; done|].
  assert (G1 : overlays s2 !! c1 = Some m1).
  { rewrite R1, lookup_insert_ne by congruence. rewrite Q1. apply lookup_insert_eq. }
  unfold GetOverlay. split; [done|]. split; [rewrite R1; apply lookup_insert_eq|].
  intros env' s3 Hcl.
  assert (G2 : overlays s2 !! c2 = Some m2) by (rewrite R1; apply lookup_insert_eq).
  destruct (CleanupOverlay_ok_exact _ _ _ _ _ G2 Hcl) as (S1 & S2 & _).
  split; [rewrite S2, Hid; set_solver|].
  rewrite S1. by rewrite lookup_delete_ne by congruence.
Qed.

(** X21: [CleanupAll] always empties the registry and keeps the base
    directory; it succeeds and removes every tree when every registered
    cleanup would succeed; when [RemoveAll] fails and the registry is not
    empty it returns an error, no tree is removed, and (when [state.json]
    was removed) a later [RecoverOrphanedMounts] finds nothing to recover. *)
Theorem CleanupAll_outcome env s r s' :
  CleanupAll env s = (r, s') ->
  overlays s' = ∅ /\ BaseDir s' = BaseDir s /\
  ((forall c m, overlays s !! c = Some m -> cleanup_would_succeed env s m) ->
     r = Ok tt /\ forall c m, overlays s !! c = Some m -> ID m ∉ dirs s') /\
  (rmall_ok env = false -> overlays s <> ∅ ->
     (exists e, r = Err e) /\ dirs s' = dirs s /\
     (remove_ok env = true -> forall env', RecoverOrphanedMounts env' s' = (Ok tt, s'))).
Proof.
  unfold CleanupAll. destruct (cleanup_each env _ None s) as [le s1] eqn:Hce.
  intros Q. injection Q as <- <-.
  destruct (remove_state_spec env (with_overlays s1 ∅)) as (R1 & R2 & R3 & R4).
  assert (HB : BaseDir (remove_state env (with_overlays s1 ∅)) = BaseDir s1)
    by (unfold remove_state; by destruct (remove_ok env)).
  pose proof Hce as Hspec. apply cleanup_each_spec in Hspec as (P1 & P2 & P3 & P4 & P5).
  assert (HB1 : BaseDir s1 = BaseDir s).
  { clear -Hce. revert Hce. generalize (@None Error) as le0.
    generalize (map_to_list (overlays s)) as ms. intros ms. revert s.
    induction ms as [|[c m] ms IH]; intros s le0 Hce; simpl in Hce; [by injection Hce as _ <-|].
    destruct (cleanupMount env s m) as [r0 s0] eqn:Hc.
    apply IH in Hce. rewrite Hce.
    destruct r0 as [[]|e]; [by apply cleanupMount_ok_exact in Hc as (_ & _ & _ & _ & ? & _)|].
    by apply cleanupMount_err_exact in Hc as (_ & _ & ? & _). }
  split; [done|]. split; [congruence|]. split.
  - intros Hall.
    assert (Hle : le = None).
    { change le with (fst (le, s1)). rewrite <- Hce. apply cleanup_each_all_ok.
      intros c m Hin. apply (Hall c). by apply elem_of_map_to_list. }
    subst le. split; [done|]. intros c m Hm. rewrite R2. apply (P5 c).
    + by apply elem_of_map_to_list.
    + by apply (Hall c).
  - intros Hr Hne.
    assert (Hms : map_to_list (overlays s) <> []).
    { intros E. apply Hne. by apply map_to_list_empty_iff. }
    destruct (cleanup_each_all_fail _ _ _ _ _ _ Hr Hms Hce) as [[e ->] Hd].
    split; [by exists e|]. split; [by rewrite R2|].
    intros Hrm env'. unfold RecoverOrphanedMounts. by rewrite (R4 Hrm).
Qed.

(** X22: after a successful [RecoverOrphanedMounts] whose removal of
    [state.json] succeeded, a second call succeeds and changes nothing. *)
Theorem RecoverOrphanedMounts_idempotent env env' s s1 :
  RecoverOrphanedMounts env s = (Ok tt, s1) -> remove_ok env = true ->
  RecoverOrphanedMounts env' s1 = (Ok tt, s1).
Proof.
  unfold RecoverOrphanedMounts at 1.
  destruct (state_file s) as [f|] eqn:Hf.
  2:{ intros Q _. injection Q as <-. unfold RecoverOrphanedMounts. by rewrite Hf. }
  destruct (read_ok env); [|simpl; congruence]. simpl negb. cbv iota.
  destruct f as [st|].
  - destruct (cleanup_each _ _ _ _) as [le s2]. intros Q Hrm. injection Q as <-.
    unfold RecoverOrphanedMounts. by rewrite (proj2 (proj2 (proj2 (remove_state_spec env s2))) Hrm).
  - intros Q Hrm. injection Q as <-.
    unfold RecoverOrphanedMounts. by rewrite (proj2 (proj2 (proj2 (remove_state_spec env s))) Hrm).
Qed.

(** X23: on a non-Linux platform, any sequence of [CreateOverlay],
    [CleanupOverlay], [CleanupAll] and [RecoverOrphanedMounts] starting
    from an empty registry leaves the registry empty and the mount table
    unchanged. *)
Theorem nonlinux_never_mounts ops s :
  Forall (fun '(env, _) => platform env = NonLinux) ops -> overlays s = ∅ ->
  overlays (run ops s) = ∅ /\ mounted (run ops s) = mounted s.
Proof.
  revert s. induction ops as [|[env o] ops IH]; intros s Hall Hempty; [done|].
  inversion Hall as [|? ? Hp Hrest]; subst. simpl.
  assert (Hstep : forall s', step env o s = Some s' -> overlays s' = ∅ /\ mounted s' = mounted s).
  { intros s' Hs. destruct o as [cid cfg|cid| |]; simpl in Hs.
    - destruct (CreateOverlay env cid cfg s) as [[m|e|] s1] eqn:Hc; [| |done].
      + exfalso. apply CreateOverlay_done_spec in Hc as (_ & _ & _ & _ & Hl & _). congruence.
      + injection Hs as <-. apply CreateOverlay_fail_frame in Hc as (Q1 & _ & Q3 & _). by rewrite Q1, Q3.
    - injection Hs as <-. unfold CleanupOverlay. by rewrite Hempty, lookup_empty.
    - injection Hs as <-. unfold CleanupAll. rewrite Hempty, map_to_list_empty. simpl.
      unfold remove_state. by destruct (remove_ok env).
    - injection Hs as <-. unfold RecoverOrphanedMounts.
      destruct (state_file s) as [f|]; [|done]. destruct (read_ok env); [|done].
      simpl. destruct f as [st|].
      + destruct (cleanup_each env _ None s) as [le s2] eqn:Hce.
        pose proof (cleanup_each_nonlinux env (map_to_list st) None s Hp) as E.
        rewrite Hce in E. simpl in E. subst s2. simpl.
        unfold remove_state. by destruct (remove_ok env).
      + simpl. unfold remove_state. by destruct (remove_ok env). }
  destruct (step env o s) as [s'|] eqn:Hs; [|done].
  destruct (Hstep s' eq_refl) as [E1 E2]. destruct (IH s' Hrest E1) as [F1 F2].
  split; [done|]. congruence.
Qed.

End OverlayExtras.

(** * The theorems above, applied to concrete inputs *)
Module Witnesses.
Import Snapshot SnapshotProps Samples Overlay OverlayProps.



Lemma C3_416_unbounded_retry_witness :
  rm_archive_ok (mk_env [] true true) = true /\
  downloadFile (mk_env [] true true) "u" (Some 100)
    (repeat (RResp 416 0 0 true) (S 1) ++ full_body) =
  (let '(r, a, log, rest) := downloadFile (mk_env [] true true) "u" None full_body in
   (r, a,
    {| req_url := "u";
       req_range := if 0 <? default 0 (Some 100) then Some (default 0 (Some 100)) else None |}
      :: repeat {| req_url := "u"; req_range := None |} 1 ++ log,
    rest)).
Proof.
  split; [reflexivity|].
  apply SnapshotClaims.C3_416_unbounded_retry. reflexivity.
Defined.

Lemma C4_archive_kept_on_failure_witness :
  Hivesim.downloadSnapshot (mk_env [RTransportErr] true true)
    DefaultBaseURL "mainnet" "geth" "100" partial_entry =
  (Err (EDownload DTransport), empty_entry,
   [{| req_url := "https://snapshots.ethpandaops.io/mainnet/geth/100/snapshot.tar.zst";
       req_range := None |}]) /\
  empty_entry = empty_entry.
Proof.
  assert (Hd : Hivesim.downloadSnapshot (mk_env [RTransportErr] true true)
    DefaultBaseURL "mainnet" "geth" "100" partial_entry =
    (Err (EDownload DTransport), empty_entry,
     [{| req_url := "https://snapshots.ethpandaops.io/mainnet/geth/100/snapshot.tar.zst";
         req_range := None |}])) by reflexivity.
  split; [exact Hd|].
  symmetry. apply (proj2 (SnapshotClaims.C4_archive_kept_on_failure
    (mk_env [RTransportErr] true true) DefaultBaseURL "mainnet" "geth" "100"
    partial_entry) _ _ _ Hd).
  - left. exists DTransport. reflexivity.
  - reflexivity.
Defined.


Lemma C6_cleanup_unmount_failed_witness :
  overlays s_registered !! cid0 = Some m_orphan /\
  CleanupOverlay (mk_oenv StDir false true) cid0 s_registered =
    (Err ErrUnmountFailed, s_registered).
Proof.
  assert (Hreg : overlays s_registered !! cid0 = Some m_orphan) by reflexivity.
  split; [exact Hreg|].
  apply (proj1 (OverlayClaims.C6_cleanup_unmount_failed
    (mk_oenv StDir false true) cid0 s_registered m_orphan Hreg));
    reflexivity.
Defined.

Lemma C7_cleanup_idempotent_witness :
  overlays s_empty !! cid0 = None /\
  CleanupOverlay (mk_oenv StDir true true) cid0 s_empty = (Ok tt, s_empty).
Proof.
  split; [reflexivity|].
  apply (proj1 (OverlayClaims.C7_cleanup_idempotent
    (mk_oenv StDir true true) cid0 s_empty)); reflexivity.
Defined.


Lemma C9_recover_orphans_witness :
  overlays (snd (RecoverOrphanedMounts (mk_oenv StDir true true) s_orphan)) =
  overlays s_orphan /\
  ID m_orphan ∈ dirs (snd (RecoverOrphanedMounts (mk_oenv StDir false true) s_orphan)).
Proof.
  split.
  - exact (proj1 (OverlayClaims.C9_recover_orphans (mk_oenv StDir true true)
      s_orphan _ _ (surjective_pairing _))).
  - apply (proj2 (proj2 (proj2 (proj2 (proj2
      (OverlayClaims.C9_recover_orphans (mk_oenv StDir false true)
         s_orphan _ _ (surjective_pairing _))))))
      {[cid0 := m_orphan]} cid0 m_orphan).
    + reflexivity.
    + reflexivity.
    + vm_compute. reflexivity.
    + vm_compute. reflexivity.
    + intros (_ & _ & [H|H]).
      * apply H. vm_compute. reflexivity.
      * vm_compute in H. discriminate H.
    + apply map_Forall_singleton. vm_compute. reflexivity.
    + intros c' m' H _. apply lookup_singleton_Some in H. destruct H as [<- _].
      reflexivity.
Defined.

Lemma C10_short_id_panics_witness :
  (String.length "abc" < 12)%nat /\
  CreateOverlay (mk_oenv StDir true true) "abc" cfg0 s_empty = (Panic, s_empty).
Proof.
  split; [simpl; lia|].
  apply OverlayClaims.C10_short_id_panics; [reflexivity|reflexivity|simpl; lia].
Defined.

End Witnesses.

(** * The further properties, applied to concrete inputs *)
Module ExtraWitnesses.
Import Snapshot SnapshotProps Samples MoreProps.

Lemma X1_EnsureSnapshot_client_alias_witness :
  "Geth" <> "" /\ index_underscore "Geth" = -1 /\
  let cfg (c' : string) :=
    {| Network := "mainnet"; Client := c'; BlockNumber := "100"; BaseURL := ""; CacheDir := "" |} in
  EnsureSnapshot f0 (cfg ("Geth" +:+ "_" +:+ "v1")) (mk_env full_body true true) ∅ =
    EnsureSnapshot f0 (cfg "Geth") (mk_env full_body true true) ∅ /\
  EnsureSnapshot f0 (cfg (ToLower "Geth")) (mk_env full_body true true) ∅ =
    EnsureSnapshot f0 (cfg "Geth") (mk_env full_body true true) ∅.
Proof.
  split; [discriminate|]. split; [vm_compute; reflexivity|].
  destruct (SnapshotExtras.EnsureSnapshot_client_alias f0 "mainnet" "Geth" "v1" "100" "" ""
              (mk_env full_body true true) ∅) as [H1 H2].
  split; [|exact H2].
  apply H1; [discriminate|vm_compute; reflexivity].
Defined.

Lemma X3_resolveLatestBlock_ok_witness :
  exists b log, resolveLatestBlock (mk_env [] true true) DefaultBaseURL "mainnet" "geth" = (Ok b, log) /\
  trimmed b = true /\ (String.length b <= 64)%nat /\
  log = [{| req_url := join (join (join DefaultBaseURL "mainnet") "geth") "latest"; req_range := None |}].
Proof.
  exists "100", [{| req_url := join (join (join DefaultBaseURL "mainnet") "geth") "latest";
                    req_range := None |}].
  split; [vm_compute; reflexivity|].
  apply (SnapshotExtras.resolveLatestBlock_ok (mk_env [] true true) DefaultBaseURL "mainnet" "geth").
  vm_compute. reflexivity.
Defined.

Lemma X4_resolveLatestBlock_roundtrip_witness :
  latest MoreSamples.fenv_padded = LResp 200 (" " +:+ "12345" +:+ String "010" "") /\
  fst (resolveLatestBlock MoreSamples.fenv_padded DefaultBaseURL "mainnet" "geth") = Ok "12345".
Proof.
  split; [reflexivity|].
  apply (SnapshotExtras.resolveLatestBlock_roundtrip MoreSamples.fenv_padded DefaultBaseURL
           "mainnet" "geth" " " "12345" (String "010" ""));
    try reflexivity; vm_compute; lia.
Defined.

Lemma X5_downloadFile_ok_shape_witness :
  exists a log rest,
  downloadFile (mk_env [] false true) "u" (Some 100)
    [RResp 416 0 0 true; RResp 206 10 10 true] = (Ok tt, a, log, rest) /\
  exists pre st cl body,
    [RResp 416 0 0 true; RResp 206 10 10 true] = pre ++ RResp st cl body true :: rest /\
    Forall (fun x => is416 x = true) pre /\ length log = S (length pre) /\
    ((st = 200 /\ create_ok (mk_env [] false true) = true /\ a = Some body) \/
     (st = 206 /\ exists n, Some 100 = Some n /\ a = Some (n + body) /\
                            (pre = [] \/ rm_archive_ok (mk_env [] false true) = false))).
Proof.
  do 3 eexists. split; [vm_compute; reflexivity|].
  eapply SnapshotExtras.downloadFile_ok_shape. vm_compute. reflexivity.
Defined.

Lemma X6_EnsureSnapshot_frame_witness :
  fst (resolve_step f0 cfg100 (mk_env full_body true true)) = Ok "100" /\
  exists r st' log, EnsureSnapshot f0 cfg100 (mk_env full_body true true) ∅ = (r, st', log) /\
  (forall k e, (∅ : Store) !! k = Some e -> e_complete e = true -> st' !! k = Some e) /\
  (forall err, fst (resolve_step f0 cfg100 (mk_env full_body true true)) = Err err -> st' = ∅) /\
  (forall block, fst (resolve_step f0 cfg100 (mk_env full_body true true)) = Ok block ->
     forall k, k <> entry_dir f0 cfg100 block -> st' !! k = (∅ : Store) !! k).
Proof.
  split; [vm_compute; reflexivity|].
  do 3 eexists. split; [vm_compute; reflexivity|].
  eapply (SnapshotExtras.EnsureSnapshot_frame f0 cfg100 (mk_env full_body true true) ∅).
  vm_compute. reflexivity.
Defined.

Lemma X7_GetCachedSnapshotPath_agrees_witness :
  CacheDir cfg100 = "" /\ BlockNumber cfg100 <> "" /\ BlockNumber cfg100 <> "latest" /\
  EnsureSnapshot f0 cfg100 (mk_env full_body true true) cached100 =
    (Ok "/c/mainnet/geth/100/data", cached100, []) /\
  GetCachedSnapshotPath f0 (Network cfg100) (Client cfg100) (BlockNumber cfg100) cached100 =
    "/c/mainnet/geth/100/data" /\
  (forall p st' log, EnsureSnapshot f0 cfg100 (mk_env full_body true true) ∅ = (Ok p, st', log) ->
   marker_ok (mk_env full_body true true) = true ->
   GetCachedSnapshotPath f0 (Network cfg100) (Client cfg100) (BlockNumber cfg100) st' = p).
Proof.
  split; [reflexivity|]. split; [discriminate|]. split; [discriminate|].
  assert (He : EnsureSnapshot f0 cfg100 (mk_env full_body true true) cached100 =
                 (Ok "/c/mainnet/geth/100/data", cached100, [])) by (vm_compute; reflexivity).
  split; [exact He|].
  split.
  - destruct (SnapshotExtras.GetCachedSnapshotPath_agrees f0 cfg100 (mk_env full_body true true)
                cached100) as (_ & _ & H3); [reflexivity|discriminate|discriminate|].
    exact (proj1 (H3 _ _ He)).
  - apply (SnapshotExtras.GetCachedSnapshotPath_agrees f0 cfg100 (mk_env full_body true true) ∅);
      [reflexivity|discriminate|discriminate].
Defined.

Lemma X8_GetCachedSnapshotPath_latest_unresolved_witness :
  exists r st' log,
  EnsureSnapshot f0 cfg_latest (mk_env full_body true true) ∅ = (r, st', log) /\
  GetCachedSnapshotPath f0 (Network cfg_latest) (Client cfg_latest) "" st' =
  GetCachedSnapshotPath f0 (Network cfg_latest) (Client cfg_latest) "" ∅.
Proof.
  do 3 eexists. split; [vm_compute; reflexivity|].
  eapply (SnapshotExtras.GetCachedSnapshotPath_latest_unresolved f0 cfg_latest
            (mk_env full_body true true) ∅); [reflexivity|reflexivity| |].
  - intros b Hb. vm_compute in Hb. injection Hb as <-.
    split; [vm_compute; reflexivity|discriminate].
  - vm_compute. reflexivity.
Defined.

Lemma X9_Hivesim_cached_after_save_witness :
  exists p st' log,
  Hivesim.EnsureSnapshotAt MoreSamples.hm (MoreSamples.henv true) "Mainnet" "Geth" "100" ∅ =
    (Ok p, st', log) /\
  Hivesim.save_ok (MoreSamples.henv true) = true /\
  Hivesim.EnsureSnapshotAt MoreSamples.hm (MoreSamples.henv false) "Mainnet" "Geth" "100" st' =
    (Ok p, st', []).
Proof.
  do 3 eexists. split; [vm_compute; reflexivity|]. split; [reflexivity|].
  eapply (SnapshotExtras.Hivesim_cached_after_save MoreSamples.hm (MoreSamples.henv true)
            (MoreSamples.henv false) "Mainnet" "Geth" "100" ∅); [|reflexivity].
  vm_compute. reflexivity.
Defined.


Lemma X11_FetchSnapshotWithConfig_spec_witness :
  exists r st' log,
  Hivesim.FetchSnapshotWithConfig MoreSamples.hcfg (MoreSamples.henv true) ∅ = (r, st', log) /\
  (Hivesim.Network MoreSamples.hcfg = "" -> r = Err Hivesim.FNetworkRequired /\ st' = ∅ /\ log = []) /\
  (Hivesim.Network MoreSamples.hcfg <> "" -> Hivesim.Client MoreSamples.hcfg = "" ->
   r = Err Hivesim.FClientRequired /\ st' = ∅ /\ log = []) /\
  let c := MoreSamples.hcfg in
  let blk := if String.eqb (Hivesim.BlockNumber c) "" then "latest" else Hivesim.BlockNumber c in
  let base := if String.eqb (Hivesim.BaseURL c) "" then Hivesim.DefaultSnapshotBaseURL
              else Hivesim.BaseURL c in
  let cache := if String.eqb (Hivesim.CacheDir c) "" then "/var/lib/hive/snapshots"
               else Hivesim.CacheDir c in
  let net := ToLower (Hivesim.Network c) in
  let cl := ToLower (Hivesim.Client c) in
  (forall p, r = Ok p -> p = join (snapshot_dir cache net cl blk) "data") /\
  Forall (fun q => req_range q = None /\
     (req_url q = snapshot_url base net cl blk \/ req_url q = Hivesim.metadata_url base net cl blk)) log.
Proof.
  do 3 eexists. split; [vm_compute; reflexivity|].
  eapply (SnapshotExtras.FetchSnapshotWithConfig_spec MoreSamples.hcfg (MoreSamples.henv true)).
  vm_compute. reflexivity.
Defined.

Lemma X12_isMounted_proc_render_witness :
  Forall (fun e => plain_field (me_dev e) /\ plain_field (me_dir e) /\
                   plain_field (me_type e) /\ plain_field (me_opts e) /\
                   (String.length (mount_line e) < MaxScanTokenSize)%nat)
    [MoreSamples.me_merged; MoreSamples.me_proc] /\
  Overlay.isMounted_proc (Some (render_mounts [MoreSamples.me_merged; MoreSamples.me_proc])) "/proc" =
  existsb (fun e => String.eqb (me_dir e) "/proc") [MoreSamples.me_merged; MoreSamples.me_proc].
Proof.
  assert (Hf : Forall (fun e => plain_field (me_dev e) /\ plain_field (me_dir e) /\
                   plain_field (me_type e) /\ plain_field (me_opts e) /\
                   (String.length (mount_line e) < MaxScanTokenSize)%nat)
    [MoreSamples.me_merged; MoreSamples.me_proc]).
  { constructor; [|constructor; [|constructor]];
      (split; [|split; [|split; [|split]]]);
      try (split; [discriminate|split; reflexivity]);
      apply Nat.ltb_lt; vm_compute; reflexivity. }
  split; [exact Hf|].
  exact (ProcMountsExtras.isMounted_proc_render _ "/proc" Hf).
Defined.

Lemma X13_isMounted_proc_never_matches_witness :
  ("/a b" = "" \/ has_space "/a b" = true) /\
  Overlay.isMounted_proc (Some (render_mounts [MoreSamples.me_merged])) "/a b" = false.
Proof.
  assert (H : "/a b" = "" \/ has_space "/a b" = true) by (right; reflexivity).
  split; [exact H|].
  exact (ProcMountsExtras.isMounted_proc_never_matches _ "/a b" H).
Defined.

End ExtraWitnesses.

Module ExtraOverlayWitnesses.
Import Overlay OverlayProps MoreProps MoreSamples.

Lemma X15_CreateOverlay_done_effects_witness :
  exists m s', CreateOverlay (mk_oenv StDir true true) cid0 cfg0 s_empty = (Done m, s') /\
  GetOverlay cid0 s' = Some m /\ ID m = overlay_id cid0 (now (mk_oenv StDir true true)) /\
  ContainerID m = cid0 /\
  LowerDir m = SnapshotPath cfg0 /\ ContainerPath m = ContainerMountPath cfg0 /\
  UpperDir m = join (join (BaseDir s_empty) (ID m)) "upper" /\
  WorkDir m = join (join (BaseDir s_empty) (ID m)) "work" /\
  MergedDir m = join (join (BaseDir s_empty) (ID m)) "merged" /\
  overlays s' = <[cid0 := m]> (overlays s_empty) /\ dirs s' = {[ID m]} ∪ dirs s_empty /\
  mounted s' = {[MergedDir m]} ∪ mounted s_empty /\ BaseDir s' = BaseDir s_empty.
Proof.
  do 2 eexists. split; [vm_compute; reflexivity|].
  eapply (OverlayExtras.CreateOverlay_done_effects (mk_oenv StDir true true) cid0 cfg0 s_empty).
  vm_compute. reflexivity.
Defined.

Lemma X16_GetOverlay_frame_witness :
  "0123456789abcdef" <> cid0 /\
  GetOverlay "0123456789abcdef"
    (snd (CreateOverlay (mk_oenv StDir true true) cid0 cfg0 s_registered)) =
    GetOverlay "0123456789abcdef" s_registered /\
  GetOverlay "0123456789abcdef"
    (snd (CleanupOverlay (mk_oenv StDir true true) cid0 s_registered)) =
    GetOverlay "0123456789abcdef" s_registered.
Proof.
  assert (H : "0123456789abcdef" <> cid0) by discriminate.
  split; [exact H|].
  exact (OverlayExtras.GetOverlay_frame (mk_oenv StDir true true) cid0 _ cfg0 s_registered H).
Defined.

Lemma X17_Create_Cleanup_roundtrip_witness :
  exists m s1, CreateOverlay (mk_oenv StDir true true) cid0 cfg0 s_empty = (Done m, s1) /\
  exists s2, CleanupOverlay (mk_oenv StDir true true) cid0 s1 = (Ok tt, s2) /\
    overlays s2 = overlays s_empty /\ dirs s2 = dirs s_empty /\ mounted s2 = mounted s_empty /\
    BaseDir s2 = BaseDir s_empty /\
    (synced s_empty -> write_ok (mk_oenv StDir true true) = true ->
     remove_ok (mk_oenv StDir true true) = true -> state_file s2 = state_file s_empty).
Proof.
  do 2 eexists. split; [vm_compute; reflexivity|].
  eapply (OverlayExtras.Create_Cleanup_roundtrip (mk_oenv StDir true true) (mk_oenv StDir true true)
            cid0 cfg0 s_empty).
  - vm_compute. reflexivity.
  - apply not_elem_of_empty.
  - apply not_elem_of_empty.
  - reflexivity.
  - reflexivity.
  - reflexivity.
Defined.

Lemma X18_registry_invariant_preserved_witness :
  reg_inv s_registered /\ mounted_inv s_registered /\
  (exists m s2,
     CreateOverlay (mk_oenv StDir true true) "0123456789abcdef" cfg0 s_registered = (Done m, s2) /\
     (ID m ∉ dirs s_registered) /\ reg_inv s2 /\ mounted_inv s2 /\
     (exists s3, CleanupOverlay (mk_oenv StDir true true) cid0 s2 = (Ok tt, s3) /\
        reg_inv s3 /\ mounted_inv s3)) /\
  reg_inv (snd (CleanupOverlay (oenv_with Linux false) cid0 s_registered)).
Proof.
  assert (H : reg_inv s_registered).
  { intros c m Hc. unfold s_registered in *; simpl in *.
    apply lookup_singleton_Some in Hc as [<- <-].
    split; [reflexivity|]. split; [apply elem_of_singleton; reflexivity|].
    split; [reflexivity|].
    intros c' m' Hc' _. apply lookup_singleton_Some in Hc' as [<- _]. reflexivity. }
  assert (Hm : mounted_inv s_registered).
  { intros c m Hc. unfold s_registered in *; simpl in *.
    apply lookup_singleton_Some in Hc as [<- <-]. apply elem_of_singleton. reflexivity. }
  split; [exact H|]. split; [exact Hm|]. split.
  - do 2 eexists.
    match goal with |- ?A /\ _ =>
      assert (Hc : A) by (vm_compute; reflexivity); split; [exact Hc|] end.
    match goal with |- ?B /\ _ =>
      assert (Hf : B) by (intros Hx; vm_compute in Hx; discriminate Hx); split; [exact Hf|] end.
    destruct (OverlayExtras.registry_invariant_preserved (mk_oenv StDir true true)
                "0123456789abcdef" cfg0 s_registered H) as [Hcr _].
    destruct (Hcr _ _ Hc Hf) as [R2 M2].
    split; [exact R2|]. split; [exact (M2 Hm)|].
    eexists.
    match goal with |- ?A /\ _ =>
      assert (Hcl : A) by (vm_compute; reflexivity); split; [exact Hcl|] end.
    destruct (OverlayExtras.registry_invariant_preserved (mk_oenv StDir true true)
                cid0 cfg0 _ R2) as [_ Hcl2].
    destruct (Hcl2 _ _ Hcl) as [R3 M3].
    split; [exact R3|]. exact (M3 eq_refl (M2 Hm)).
  - destruct (OverlayExtras.registry_invariant_preserved (oenv_with Linux false) cid0 cfg0
                s_registered H) as [_ Hcl].
    exact (proj1 (Hcl _ _ (surjective_pairing _))).
Defined.

Lemma X19_CleanupOverlay_removeall_failure_witness :
  exists s', CleanupOverlay (oenv_with Linux false) cid0 s_registered = (Err ErrRemoveAll, s') /\
  GetOverlay cid0 s' = Some m_orphan /\ (MergedDir m_orphan ∉ mounted s') /\
  (ID m_orphan ∈ dirs s_registered -> ID m_orphan ∈ dirs s') /\
  state_file s' = state_file s_registered /\
  (platform (mk_oenv StDir false true) = Linux -> rmall_ok (mk_oenv StDir false true) = true ->
   fst (CleanupOverlay (mk_oenv StDir false true) cid0 s') = Ok tt).
Proof.
  eexists. split; [vm_compute; reflexivity|].
  eapply (OverlayExtras.CleanupOverlay_removeall_failure (oenv_with Linux false)
            (mk_oenv StDir false true) cid0 s_registered m_orphan).
  - reflexivity.
  - vm_compute. reflexivity.
Defined.

Lemma X20_overlay_id_collision_witness :
  exists m1 s1,
  CreateOverlay (mk_oenv StDir true true) "abcdef123456aaaa" cfg0 s_empty = (Done m1, s1) /\
  exists m2 s2, CreateOverlay (mk_oenv StDir true true) "abcdef123456bbbb" cfg0 s1 = (Done m2, s2) /\
    ID m2 = ID m1 /\ MergedDir m2 = MergedDir m1 /\
    GetOverlay "abcdef123456aaaa" s2 = Some m1 /\ GetOverlay "abcdef123456bbbb" s2 = Some m2 /\
    (forall env' s3, CleanupOverlay env' "abcdef123456bbbb" s2 = (Ok tt, s3) ->
       (ID m1 ∉ dirs s3) /\ GetOverlay "abcdef123456aaaa" s3 = Some m1).
Proof.
  do 2 eexists. split; [vm_compute; reflexivity|].
  eapply (OverlayExtras.overlay_id_collision (mk_oenv StDir true true)
            "abcdef123456aaaa" "abcdef123456bbbb" cfg0 cfg0 s_empty).
  - vm_compute. reflexivity.
  - discriminate.
  - reflexivity.
  - reflexivity.
  - apply Nat.leb_le. reflexivity.
  - reflexivity.
Defined.

Lemma X21_CleanupAll_outcome_witness :
  exists r s', CleanupAll (oenv_with Linux false) s_registered = (r, s') /\
  overlays s' = ∅ /\ BaseDir s' = BaseDir s_registered /\
  ((forall c m, overlays s_registered !! c = Some m ->
      cleanup_would_succeed (oenv_with Linux false) s_registered m) ->
     r = Ok tt /\ forall c m, overlays s_registered !! c = Some m -> ID m ∉ dirs s') /\
  (rmall_ok (oenv_with Linux false) = false -> overlays s_registered <> ∅ ->
     (exists e, r = Err e) /\ dirs s' = dirs s_registered /\
     (remove_ok (oenv_with Linux false) = true ->
      forall env', RecoverOrphanedMounts env' s' = (Ok tt, s'))).
Proof.
  do 2 eexists. split; [vm_compute; reflexivity|].
  eapply (OverlayExtras.CleanupAll_outcome (oenv_with Linux false) s_registered).
  vm_compute. reflexivity.
Defined.

Lemma X22_RecoverOrphanedMounts_idempotent_witness :
  exists s1, RecoverOrphanedMounts (mk_oenv StDir true true) s_orphan = (Ok tt, s1) /\
  remove_ok (mk_oenv StDir true true) = true /\
  RecoverOrphanedMounts (mk_oenv StDir false true) s1 = (Ok tt, s1).
Proof.
  eexists. split; [vm_compute; reflexivity|]. split; [reflexivity|].
  eapply (OverlayExtras.RecoverOrphanedMounts_idempotent (mk_oenv StDir true true)
            (mk_oenv StDir false true) s_orphan).
  - vm_compute. reflexivity.
  - reflexivity.
Defined.

Lemma X23_nonlinux_never_mounts_witness :
  overlays (run [(oenv_with NonLinux true, OCreate cid0 cfg0);
                 (oenv_with NonLinux true, OCleanup cid0);
                 (oenv_with NonLinux true, ORecover)] s_empty) = ∅ /\
  mounted (run [(oenv_with NonLinux true, OCreate cid0 cfg0);
                (oenv_with NonLinux true, OCleanup cid0);
                (oenv_with NonLinux true, ORecover)] s_empty) = mounted s_empty.
Proof.
  apply OverlayExtras.nonlinux_never_mounts.
  - constructor; [reflexivity|]. constructor; [reflexivity|].
    constructor; [reflexivity|]. constructor.
  - reflexivity.
Defined.

End ExtraOverlayWitnesses.
